(** * Host-based proxy gateway of code-server (brevdev fork)

    A shallow embedding of [src/node/publicPort.ts] (class [PublicPorts]) and
    of the domain-proxy route that consults it ([maybeProxy], the HTTP
    handler [router.all] and the WebSocket handler [wsRouter.ws]), followed
    by the properties of the port directory, of the host router and of the
    authorization gate.

    Conventions of the embedding:
    - JavaScript strings are [string]; every character the code inspects
      ([:], [.], [-], [/], digits, lower-case letters) is ASCII.
    - An exception is a value [Throw e] of the [result] type.
    - The object [portFiles] is an association list in insertion order
      (its keys are relative paths accepted by the ports glob, never array
      indices); the object built by [portFileToPorts] is a [gmap] for its
      own properties, looked up through [Object.prototype] as JavaScript
      does.
    - Library calls whose code is not part of the repository
      ([yaml.load], [picomatch], [authenticated], [normalize]) are inputs
      of the functions that call them. *)

From Stdlib Require Import String Ascii List Bool ZArith Lia.
From stdpp Require Import base gmap list strings.

Import ListNotations.
Local Open Scope string_scope.
Local Open Scope list_scope.

(** ** JavaScript values used by the code *)

Inductive JsError : Type :=
| Error (message : string)
| TypeError (message : string).

Inductive result (A : Type) : Type :=
| Ok (a : A)
| Throw (e : JsError).
Arguments Ok {A} a.
Arguments Throw {A} e.

Definition bind {A B : Type} (r : result A) (k : A -> result B) : result B :=
  match r with
  | Ok a => k a
  | Throw e => Throw e
  end.

Notation "'let*' x := r 'in' k" := (bind r (fun x => k))
  (at level 10, x name, r at level 100, k at level 200).

(** ** String primitives *)

Module Js.

(** [s.startsWith(p)] *)
Fixpoint startsWith (p s : string) : bool :=
  match p, s with
  | EmptyString, _ => true
  | String a p', String b s' => if Ascii.eqb a b then startsWith p' s' else false
  | String _ _, EmptyString => false
  end.

(** [s.includes(needle)] *)
Fixpoint includes (needle s : string) : bool :=
  if startsWith needle s then true
  else match s with
       | EmptyString => false
       | String _ s' => includes needle s'
       end.

(** [s.split(sep)] for a one-character separator: never empty. *)
Fixpoint split (sep : ascii) (s : string) : list string :=
  match s with
  | EmptyString => [EmptyString]
  | String c s' =>
      if Ascii.eqb c sep then EmptyString :: split sep s'
      else match split sep s' with
           | [] => [String c EmptyString]
           | w :: ws => String c w :: ws
           end
  end.

(** [parts.join(sep)] for a one-character separator. *)
Fixpoint join (sep : ascii) (parts : list string) : string :=
  match parts with
  | [] => EmptyString
  | [w] => w
  | w :: rest => w +:+ String sep (join sep rest)
  end.

(** [idx = s.indexOf(c); idx !== -1 ? s.substring(0, idx) : s] *)
Fixpoint upTo (c : ascii) (s : string) : string :=
  match s with
  | EmptyString => EmptyString
  | String a s' => if Ascii.eqb a c then EmptyString else String a (upTo c s')
  end.

Fixpoint all (p : ascii -> bool) (s : string) : bool :=
  match s with
  | EmptyString => true
  | String a s' => p a && all p s'
  end.

Definition isDigit (a : ascii) : bool :=
  let n := nat_of_ascii a in (48 <=? n)%nat && (n <=? 57)%nat.

Definition isLower (a : ascii) : bool :=
  let n := nat_of_ascii a in (97 <=? n)%nat && (n <=? 122)%nat.

(** A regular expression [^[class]+$]: a non-empty string of the class. *)
Definition plus (p : ascii -> bool) (s : string) : bool :=
  match s with
  | EmptyString => false
  | String _ _ => all p s
  end.

(** The names every object literal inherits from [Object.prototype]. *)
Definition objectPrototype : list string :=
  [ "constructor"; "__defineGetter__"; "__defineSetter__"; "hasOwnProperty";
    "__lookupGetter__"; "__lookupSetter__"; "isPrototypeOf";
    "propertyIsEnumerable"; "toString"; "valueOf"; "__proto__";
    "toLocaleString" ].

Definition inherited (name : string) : bool :=
  existsb (String.eqb name) objectPrototype.

End Js.

(** ** publicPort.ts *)

(** A validated [PortFile] as stored in [portFiles]: [res.value] of the
    schema validation.  Both fields of the schema are optional, and the
    whole value is [undefined] for an empty YAML document. *)
Inductive PortFile : Type :=
| PFUndefined
| PFObject (version : option string) (ports : option (list string)).

(** What reading an entry of the merged [Ports] object yields: a port string
    stored by [portFileToPorts], or a member inherited from
    [Object.prototype] (a function or object, never a string). *)
Inductive PortValue : Type :=
| PortStr (port : string)
| Inherited (name : string).

(** What [yaml.load] returns, as far as the schema tells values apart;
    [YDate] is the [Date] object of a timestamp, an object with no key of
    its own. *)
#[warnings="-register-all"]
Inductive Yaml : Type :=
| YUndefined
| YNull
| YBool (b : bool)
| YNum (n : Z)
| YStr (s : string)
| YSeq (items : list Yaml)
| YMap (fields : list (string * Yaml))
| YDate.

(** [yaml.load(fs.readFileSync(path, "utf8"))] for every path: [None] when
    either call throws. *)
Definition FileSystem : Type := string -> option Yaml.

(** The fields of the class; [portsGlob] is the matcher [picomatch]
    compiles from the glob given to the constructor. *)
Record PublicPorts : Type := mkPublicPorts {
  portsGlob : string -> bool;
  portFiles : list (string * PortFile);
  searchPath : option string
}.

Definition new_PublicPorts (glob : string -> bool) : PublicPorts :=
  {| portsGlob := glob; portFiles := []; searchPath := None |}.

Definition startWatch (path : string) (this : PublicPorts) : PublicPorts :=
  {| portsGlob := portsGlob this;
     portFiles := portFiles this;
     searchPath := Some path |}.

Definition validatePort (port : string) : option string :=
  if Js.plus Js.isDigit port then Some port else None.

Definition validatePortOrAlias (portOrAlias : string) : option string :=
  if Js.plus (fun a => Js.isLower a || Js.isDigit a) portOrAlias
  then Some portOrAlias else None.

Definition parsePortOrPortMapping (portOrMapping : string)
  : option (string * string) :=
  if Js.includes ":" portOrMapping then
    let res := Js.split ":" portOrMapping in
    match validatePortOrAlias (nth 0 res "") with
    | None => None
    | Some portOrAlias =>
        match validatePort (nth 1 res "") with
        | None => None
        | Some port => Some (portOrAlias, port)
        end
    end
  else
    match validatePort portOrMapping with
    | None => None
    | Some port => Some (port, port)
    end.

(** The [forEach] of [mergePortFiles]: push what is not yet included. *)
Definition pushNew (prev : list string) (curr : list string) : list string :=
  fold_left (fun acc port => if existsb (String.eqb port) acc then acc
                             else acc ++ [port]) curr prev.

(** [currValue.ports.forEach] throws on a value without [ports]. *)
Definition portsOf (currValue : PortFile) : result (list string) :=
  match currValue with
  | PFUndefined =>
      Throw (TypeError "Cannot read properties of undefined (reading 'ports')")
  | PFObject _ None =>
      Throw (TypeError "Cannot read properties of undefined (reading 'forEach')")
  | PFObject _ (Some ports) => Ok ports
  end.

Fixpoint reducePortFiles (values : list PortFile) (prev : list string)
  : result (list string) :=
  match values with
  | [] => Ok prev
  | currValue :: rest =>
      let* ports := portsOf currValue in
      reducePortFiles rest (pushNew prev ports)
  end.

Definition mergePortFiles (this : PublicPorts) : result (list string) :=
  reducePortFiles (map snd (portFiles this)) [].

Definition portFileToPorts (ports : list string) : gmap string string :=
  fold_left (fun prev curr =>
               match parsePortOrPortMapping curr with
               | None => prev
               | Some (k, v) => <[k := v]> prev
               end) ports ∅.

Definition getPublicPorts (this : PublicPorts) : result (gmap string string) :=
  match searchPath this with
  | None => Throw (Error "searchPath not defined -- startWatch not yet called")
  | Some _ =>
      let* mergedPorts := mergePortFiles this in
      Ok (portFileToPorts mergedPorts)
  end.

(** [ports[key]] on an object literal: own property first, then the
    prototype; [None] is [undefined]. *)
Definition getProperty (ports : gmap string string) (key : string)
  : option PortValue :=
  match ports !! key with
  | Some v => Some (PortStr v)
  | None => if Js.inherited key then Some (Inherited key) else None
  end.

(** [None] is [null]. *)
Definition getPublicPort (this : PublicPorts) (portOrAlias : string)
  : result (option PortValue) :=
  let* ports := getPublicPorts this in
  Ok (getProperty ports portOrAlias).

(** *** The watcher callbacks *)

(** [joi.string()]: a string, and not the empty one. *)
Definition joiString (y : Yaml) : option string :=
  match y with
  | YStr (String a s) => Some (String a s)
  | _ => None
  end.

(** [joi.array().items(joi.string())] *)
Fixpoint joiStrings (items : list Yaml) : option (list string) :=
  match items with
  | [] => Some []
  | y :: rest =>
      match joiString y, joiStrings rest with
      | Some s, Some l => Some (s :: l)
      | _, _ => None
      end
  end.

Fixpoint field (key : string) (fields : list (string * Yaml)) : option Yaml :=
  match fields with
  | [] => None
  | (k, y) :: rest => if String.eqb k key then Some y else field key rest
  end.

(** [portFileSchema.validate(yamlData)]: [None] when [res.error] is
    defined, [Some res.value] otherwise.  The schema is an object with the
    optional keys [version] (a string) and [ports] (an array of strings)
    and no other key; like every joi schema it accepts [undefined].  A
    [Date] is an object without keys: it passes, and what is stored has
    neither [version] nor [ports]. *)
Definition portFileSchema_validate (yamlData : Yaml) : option PortFile :=
  match yamlData with
  | YUndefined => Some PFUndefined
  | YMap fields =>
      if forallb (fun kv => String.eqb (fst kv) "version"
                            || String.eqb (fst kv) "ports") fields
      then
        match field "version" fields, field "ports" fields with
        | None, None => Some (PFObject None None)
        | Some v, None =>
            match joiString v with
            | Some version => Some (PFObject (Some version) None)
            | None => None
            end
        | None, Some (YSeq items) =>
            match joiStrings items with
            | Some ports => Some (PFObject None (Some ports))
            | None => None
            end
        | Some v, Some (YSeq items) =>
            match joiString v, joiStrings items with
            | Some version, Some ports =>
                Some (PFObject (Some version) (Some ports))
            | _, _ => None
            end
        | _, Some _ => None
        end
      else None
  | YDate => Some (PFObject None None)
  | _ => None
  end.

Definition didMatchGlob (this : PublicPorts) (relPath : string) : bool :=
  portsGlob this relPath.

Definition getFullPath (this : PublicPorts) (relPath : string) : string :=
  match searchPath this with
  | Some p => p
  | None => "undefined"
  end +:+ "/" +:+ relPath.

(** [None] is [null]. *)
Definition getPublicPortsFromFile (fs : FileSystem) (this : PublicPorts)
    (relPath : string) : option PortFile :=
  match fs (getFullPath this relPath) with
  | None => None
  | Some yamlData => portFileSchema_validate yamlData
  end.

(** [obj[key] = value]: an existing property keeps its place. *)
Fixpoint assign {A : Type} (key : string) (value : A)
    (obj : list (string * A)) : list (string * A) :=
  match obj with
  | [] => [(key, value)]
  | (k, v) :: rest =>
      if String.eqb k key then (key, value) :: rest
      else (k, v) :: assign key value rest
  end.

(** [delete obj[key]] *)
Fixpoint delete_key {A : Type} (key : string) (obj : list (string * A))
  : list (string * A) :=
  match obj with
  | [] => []
  | (k, v) :: rest =>
      if String.eqb k key then delete_key key rest
      else (k, v) :: delete_key key rest
  end.

Definition putFile (fs : FileSystem) (relPath : string) (this : PublicPorts)
  : PublicPorts :=
  if negb (didMatchGlob this relPath) then this
  else
    match getPublicPortsFromFile fs this relPath with
    | None => this
    | Some publicPorts =>
        {| portsGlob := portsGlob this;
           portFiles := assign relPath publicPorts (portFiles this);
           searchPath := searchPath this |}
    end.

Definition deleteFile (relPath : string) (this : PublicPorts) : PublicPorts :=
  if negb (didMatchGlob this relPath) then this
  else
    {| portsGlob := portsGlob this;
       portFiles := delete_key relPath (portFiles this);
       searchPath := searchPath this |}.

(** The events [startWatch] subscribes to, each with the file system of the
    moment the callback runs. *)
Inductive WatchEvent : Type :=
| EvAdd (relPath : string)
| EvChange (relPath : string)
| EvUnlink (relPath : string).

Definition onEvent (fs : FileSystem) (ev : WatchEvent) (this : PublicPorts)
  : PublicPorts :=
  match ev with
  | EvAdd relPath => putFile fs relPath this
  | EvChange relPath => putFile fs relPath this
  | EvUnlink relPath => deleteFile relPath this
  end.

(** The instances a program can hold once [startWatch] has been called. *)
Inductive watching : PublicPorts -> Prop :=
| watching_start glob path :
    watching (startWatch path (new_PublicPorts glob))
| watching_again path this :
    watching this -> watching (startWatch path this)
| watching_event fs ev this :
    watching this -> watching (onEvent fs ev this).

(** ** The domain proxy route *)

Record Args : Type := mkArgs {
  proxy_port_separator : option string;
  proxy_domain : list string
}.

Record Request : Type := mkRequest {
  host : option string;       (* req.headers.host *)
  accept : option string;     (* req.headers.accept *)
  method : string;
  baseUrl : string;
  path : string;
  originalUrl : string;
  args : Args
}.

(** [separator] of [maybeProxy] *)
Definition separator (req : Request) : ascii :=
  match proxy_port_separator (args req) with
  | Some "dash" => "-"%char
  | _ => "."%char
  end.

(** [domain] of [maybeProxy]: the host header without its port. *)
Definition domain (req : Request) : string :=
  Js.upTo ":" (default "" (host req)).

Definition maybeProxy (req : Request) : option string :=
  let parts := Js.split (separator req) (domain req) in
  let port := hd "" parts in
  let proxyDomain := Js.join (separator req) (tl parts) in
  if String.eqb port ""
     || negb (existsb (String.eqb proxyDomain) (proxy_domain (args req)))
  then None
  else Some port.

(** The options of [proxy.web] and [proxy.ws]; the target is
    [http://0.0.0.0:${mappedPort}${req.originalUrl}]. *)
Record ProxyOptions : Type := mkProxyOptions {
  ignorePath : bool;
  mappedPort : PortValue;
  targetUrl : string
}.

(** How a handler ends. *)
Inductive Outcome : Type :=
| Next                                  (* return next() *)
| RedirectLogin (to : option string)    (* redirect(req, res, "login", {to}) *)
| Unauthorized                          (* throw new HttpError("Unauthorized", 401) *)
| Failed (e : JsError)                  (* an exception of getPublicPort *)
| ProxyWeb (options : ProxyOptions)     (* proxy.web(req, res, options) *)
| ProxyWs (options : ProxyOptions).     (* proxy.ws(req, req.ws, req.head, options) *)

Definition proxyOptions (foundPublicPort : option PortValue) (port : string)
    (req : Request) : ProxyOptions :=
  {| ignorePath := true;
     mappedPort := match foundPublicPort with
                   | Some found => found
                   | None => PortStr port
                   end;
     targetUrl := originalUrl req |}.

Definition isSome {A : Type} (o : option A) : bool :=
  match o with Some _ => true | None => false end.

Section DomainProxy.

(** The collaborators imported from [../http] and [../../common/util]. *)
Variable authenticated : Request -> bool.
Variable normalize : string -> string.

(** [router.all("*", ...)] on the instance [publicPorts]. *)
Definition router_all (publicPorts : PublicPorts) (req : Request) : Outcome :=
  match maybeProxy req with
  | None => Next
  | Some "" => Next
  | Some port =>
      match getPublicPort publicPorts port with
      | Throw e => Failed e
      | Ok foundPublicPort =>
          let portIsPublic := isSome foundPublicPort in
          let isAuthenticated := authenticated req in
          if negb isAuthenticated && negb portIsPublic then
            if Js.startsWith "/static/" (path req)
               && String.eqb (method req) "GET"
            then Next
            else if match accept req with
                    | Some a => negb (String.eqb a "")
                                && Js.includes "text/html" a
                    | None => false
                    end
            then
              (* /\/login\/?/.test(req.path) *)
              if Js.includes "/login" (path req) then Next
              else
                let to := normalize (baseUrl req +:+ path req) in
                RedirectLogin (if String.eqb to "/" then None else Some to)
            else Unauthorized
          else ProxyWeb (proxyOptions foundPublicPort port req)
      end
  end.

(** [wsRouter.ws("*", ...)] *)
Definition wsRouter_ws (publicPorts : PublicPorts) (req : Request) : Outcome :=
  match maybeProxy req with
  | None => Next
  | Some "" => Next
  | Some port =>
      match getPublicPort publicPorts port with
      | Throw e => Failed e
      | Ok foundPublicPort =>
          let portIsPublic := isSome foundPublicPort in
          let isAuthenticated := authenticated req in
          if negb isAuthenticated && negb portIsPublic then Unauthorized
          else ProxyWs (proxyOptions foundPublicPort port req)
      end
  end.

End DomainProxy.

(** ** Concrete instances used in the examples *)

(** [picomatch("**/.brev/ports.y*ml")] on the paths of the examples: the
    last two segments are [.brev] and [ports.y*ml], the directories before
    them are not hidden. *)
Definition endsWith (suffix s : string) : bool :=
  Js.startsWith (String.rev suffix) (String.rev s).

Definition defaultPortsGlob (relPath : string) : bool :=
  match rev (Js.split "/" relPath) with
  | name :: ".brev" :: dirs =>
      Js.startsWith "ports.y" name && endsWith "ml" name
      && (9 <=? String.length name)%nat
      && forallb (fun d => negb (Js.startsWith "." d)
                           && negb (String.eqb d "")) dirs
  | _ => false
  end.

(** A manifest with the given [ports], as [yaml.load] returns it. *)
Definition manifest (ports : list string) : Yaml :=
  YMap [("version", YStr "1"); ("ports", YSeq (map YStr ports))].

(** A file system whose listed paths load; any other read throws. *)
Definition files (contents : list (string * Yaml)) : FileSystem :=
  fun p => field p contents.

(** The singleton of the route, after [startWatch("/w")]. *)
Definition started : PublicPorts :=
  startWatch "/w" (new_PublicPorts defaultPortsGlob).

(** The manifest [/w/.brev/ports.yaml] declaring port 8000 has been added. *)
Definition tracking8000 : PublicPorts :=
  putFile (files [("/w/.brev/ports.yaml", manifest ["8000"])])
    ".brev/ports.yaml" started.

(** The same file, now with [ports: null], and now unreadable as YAML. *)
Definition portsNull : FileSystem :=
  files [("/w/.brev/ports.yaml", YMap [("ports", YNull)])].

Definition brokenYaml : FileSystem := files [].


(** The collaborators of the examples: nobody is logged in, everybody is;
    the paths of the examples are already normal. *)
Definition anonymous : Request -> bool := fun _ => false.
Definition loggedIn : Request -> bool := fun _ => true.
Definition normalPath : string -> string := fun url => url.

(** The manifest [/w/.brev/ports.yaml] maps the alias [myserver] to 8080. *)
Definition trackingAlias : PublicPorts :=
  putFile (files [("/w/.brev/ports.yaml", manifest ["myserver:8080"])])
    ".brev/ports.yaml" started.

(** Two manifests that map the alias [web] differently; [b] is added last. *)
Definition twoManifests : FileSystem :=
  files [("/w/a/.brev/ports.yaml", manifest ["8000"; "web:8080"]);
         ("/w/b/.brev/ports.yaml", manifest ["9000"; "web:9090"])].

Definition trackingTwo : PublicPorts :=
  putFile twoManifests "b/.brev/ports.yaml"
    (putFile twoManifests "a/.brev/ports.yaml" started).

(** A request for [hostHeader] under [--proxy-domain example.com]. *)
Definition request (hostHeader method path : string) (accept : option string)
  : Request :=
  {| host := Some hostHeader;
     accept := accept;
     method := method;
     baseUrl := "";
     path := path;
     originalUrl := path;
     args := {| proxy_port_separator := None;
                proxy_domain := ["example.com"] |} |}.

(** ** Vocabulary of the properties *)

Definition hasPrefix (prefix s : string) : Prop :=
  exists rest, s = prefix +:+ rest.

Definition contains (needle s : string) : Prop :=
  exists before after, s = before +:+ needle +:+ after.

(** The character [c] does not occur in [s]. *)
Definition freeOf (c : ascii) (s : string) : Prop :=
  forall before after, s <> before +:+ String c after.

(** The request is a [GET] of a static asset. *)
Definition staticAsset (req : Request) : Prop :=
  hasPrefix "/static/" (path req) /\ method req = "GET".

(** The [Accept] header names [text/html]. *)
Definition acceptsHtml (req : Request) : Prop :=
  exists a, accept req = Some a /\ contains "text/html" a.

(** The request was handed to the forwarder. *)
Definition forwarded (out : Outcome) : Prop :=
  exists options, out = ProxyWeb options \/ out = ProxyWs options.

Definition isPort (s : string) : Prop := Js.plus Js.isDigit s = true.
Definition isAlias (s : string) : Prop :=
  Js.plus (fun a => Js.isLower a || Js.isDigit a) s = true.

(** An entry is a bare port ... *)
Definition barePort (entry token : string) : Prop :=
  Js.includes ":" entry = false /\ entry = token /\ isPort token.

(** ... or a mapping, of which [split(":")] keeps the first two parts. *)
Definition mapsAlias (entry token port : string) : Prop :=
  Js.includes ":" entry = true
  /\ nth 0 (Js.split ":" entry) "" = token /\ isAlias token
  /\ nth 1 (Js.split ":" entry) "" = port /\ isPort port.

Definition entriesOf (file : PortFile) : list string :=
  match file with
  | PFObject _ (Some ports) => ports
  | _ => []
  end.

Definition hasPorts (file : PortFile) : bool :=
  match file with
  | PFObject _ (Some _) => true
  | _ => false
  end.

(** Every tracked value carries a [ports] array. *)
Definition wellFormed (this : PublicPorts) : Prop :=
  Forall (fun kv => hasPorts (snd kv) = true) (portFiles this).

(** [token] is the key, and [port] the value, of an entry of [file]. *)
Definition declares (file : PortFile) (token port : string) : Prop :=
  exists entry,
    In entry (entriesOf file)
    /\ parsePortOrPortMapping entry = Some (token, port).

Definition merged (files : list (string * PortFile)) (prev : list string)
  : list string :=
  fold_left pushNew (map (fun kv => entriesOf (snd kv)) files) prev.

(** The value of the last entry whose key is [key], or [init]. *)
Definition resolveFrom (key : string) (entries : list string)
    (init : option string) : option string :=
  fold_left (fun acc entry =>
               match parsePortOrPortMapping entry with
               | Some (k, v) => if String.eqb k key then Some v else acc
               | None => acc
               end) entries init.

Definition hasKey (key entry : string) : bool :=
  match parsePortOrPortMapping entry with
  | Some (k, _) => String.eqb k key
  | None => false
  end.

(** The shapes the schema rejects. *)
Definition nonEmptyString (y : Yaml) : Prop :=
  exists a s, y = YStr (String a s).

Inductive schemaMismatch : Yaml -> Prop :=
| mismatch_null : schemaMismatch YNull
| mismatch_bool b : schemaMismatch (YBool b)
| mismatch_num n : schemaMismatch (YNum n)
| mismatch_str s : schemaMismatch (YStr s)
| mismatch_seq items : schemaMismatch (YSeq items)
| mismatch_key fields k y :
    In (k, y) fields -> k <> "version" -> k <> "ports" ->
    schemaMismatch (YMap fields)
| mismatch_version fields y :
    field "version" fields = Some y -> ~ nonEmptyString y ->
    schemaMismatch (YMap fields)
| mismatch_ports fields y :
    field "ports" fields = Some y -> (forall items, y <> YSeq items) ->
    schemaMismatch (YMap fields)
| mismatch_item fields items y :
    field "ports" fields = Some (YSeq items) ->
    In y items -> ~ nonEmptyString y ->
    schemaMismatch (YMap fields).

(** ** Vocabulary of the further properties *)

(** [obj[key]] on an object used as a map: [None] is [undefined]. *)
Fixpoint getKey {A : Type} (key : string) (obj : list (string * A))
  : option A :=
  match obj with
  | [] => None
  | (k, v) :: rest => if String.eqb k key then Some v else getKey key rest
  end.

(** The request with another [Host] header. *)
Definition withHost (header : option string) (req : Request) : Request :=
  {| host := header;
     accept := accept req;
     method := method req;
     baseUrl := baseUrl req;
     path := path req;
     originalUrl := originalUrl req;
     args := args req |}.

(** Two manifests that both declare port 8000. *)
Definition sharedManifests : FileSystem :=
  files [("/w/a/.brev/ports.yaml", manifest ["8000"; "web:8080"]);
         ("/w/b/.brev/ports.yaml", manifest ["web:8080"; "8000"; "9000"])].

Definition trackingShared : PublicPorts :=
  putFile sharedManifests "b/.brev/ports.yaml"
    (putFile sharedManifests "a/.brev/ports.yaml" started).

(** * Properties *)

(** ** Strings *)

Lemma existsb_eqb_In (x : string) (l : list string) :
  existsb (String.eqb x) l = true <-> In x l.
Proof.
  rewrite existsb_exists. split.
  - intros (y & Hin & Heq). apply String.eqb_eq in Heq. now subst.
  - intros Hin. exists x. split; [assumption | apply String.eqb_refl].
Qed.

Lemma existsb_eqb_not_In (x : string) (l : list string) :
  existsb (String.eqb x) l = false <-> ~ In x l.
Proof.
  rewrite <- existsb_eqb_In. destruct (existsb _ l); split; congruence.
Qed.

Lemma split_not_nil (sep : ascii) (s : string) : Js.split sep s <> [].
Proof.
  destruct s as [|c s]; simpl; [discriminate|].
  destruct (Ascii.eqb c sep); [discriminate|].
  destruct (Js.split sep s); discriminate.
Qed.

(** Joining what was split gives the string back. *)
Lemma join_split (sep : ascii) (s : string) :
  Js.join sep (Js.split sep s) = s.
Proof.
  induction s as [|c s IH]; [reflexivity|].
  simpl. destruct (Ascii.eqb c sep) eqn:E.
  - apply Ascii.eqb_eq in E. subst c.
    pose proof (split_not_nil sep s) as Hne.
    change (Js.join sep (EmptyString :: Js.split sep s)) with
      (match Js.split sep s with
       | [] => EmptyString
       | _ :: _ => EmptyString +:+ String sep (Js.join sep (Js.split sep s))
       end).
    destruct (Js.split sep s); [congruence|]. simpl in *. now rewrite IH.
  - pose proof (split_not_nil sep s) as Hne.
    destruct (Js.split sep s) as [|w ws]; [congruence|].
    destruct ws as [|w' ws]; simpl in *; now rewrite <- IH.
Qed.

(** ** Validation of entries *)

Lemma validatePort_Some (s p : string) :
  validatePort s = Some p <-> p = s /\ isPort s.
Proof.
  unfold validatePort, isPort. destruct (Js.plus Js.isDigit s); split.
  - intros [= <-]. now split.
  - intros [-> _]. reflexivity.
  - discriminate.
  - intros [_ ?]. discriminate.
Qed.

Lemma validatePortOrAlias_Some (s a : string) :
  validatePortOrAlias s = Some a <-> a = s /\ isAlias s.
Proof.
  unfold validatePortOrAlias, isAlias.
  destruct (Js.plus _ s); split.
  - intros [= <-]. now split.
  - intros [-> _]. reflexivity.
  - discriminate.
  - intros [_ ?]. discriminate.
Qed.

Lemma parsePortOrPortMapping_Some (entry token port : string) :
  parsePortOrPortMapping entry = Some (token, port) <->
  (barePort entry token /\ port = token) \/ mapsAlias entry token port.
Proof.
  unfold parsePortOrPortMapping, barePort, mapsAlias.
  destruct (Js.includes ":" entry) eqn:Hc.
  - destruct (validatePortOrAlias _) as [a|] eqn:Ha.
    + apply validatePortOrAlias_Some in Ha as [-> Ha].
      destruct (validatePort _) as [p|] eqn:Hp.
      * apply validatePort_Some in Hp as [-> Hp]. split.
        -- intros [= <- <-]. right. tauto.
        -- intros [[(? & _) _]|(_ & <- & _ & <- & _)]; [discriminate|reflexivity].
      * split; [discriminate|].
        intros [[(? & _) _]|(_ & _ & _ & <- & Hp')]; [discriminate|].
        unfold validatePort in Hp. unfold isPort in Hp'. now rewrite Hp' in Hp.
    + split; [discriminate|].
      intros [[(? & _) _]|(_ & <- & Ha' & _)]; [discriminate|].
      unfold validatePortOrAlias in Ha. unfold isAlias in Ha'.
      now rewrite Ha' in Ha.
  - destruct (validatePort entry) as [p|] eqn:Hp.
    + apply validatePort_Some in Hp as [-> Hp]. split.
      * intros [= <- <-]. left. tauto.
      * intros [[(_ & <- & _) ->]|(? & _)]; [reflexivity|discriminate].
    + split; [discriminate|].
      intros [[(_ & <- & Hp') _]|(? & _)]; [|discriminate].
      unfold validatePort in Hp. unfold isPort in Hp'. now rewrite Hp' in Hp.
Qed.

(** ** The merged list of entries *)

Lemma pushNew_nil (prev : list string) : pushNew prev [] = prev.
Proof. reflexivity. Qed.

Lemma pushNew_cons (prev : list string) (x : string) (l : list string) :
  pushNew prev (x :: l) =
  pushNew (if existsb (String.eqb x) prev then prev else prev ++ [x]) l.
Proof. reflexivity. Qed.

Lemma In_pushNew (x : string) (curr prev : list string) :
  In x (pushNew prev curr) <-> In x prev \/ In x curr.
Proof.
  revert prev. induction curr as [|y curr IH]; intros prev.
  - simpl. tauto.
  - rewrite pushNew_cons, IH. simpl.
    destruct (existsb (String.eqb y) prev) eqn:E.
    + apply existsb_eqb_In in E. split; [tauto|].
      intros [H|[<-|H]]; auto.
    + rewrite in_app_iff. simpl. tauto.
Qed.

Lemma reducePortFiles_merged (files : list (string * PortFile))
    (prev : list string) :
  Forall (fun kv => hasPorts (snd kv) = true) files ->
  reducePortFiles (map snd files) prev = Ok (merged files prev).
Proof.
  revert prev. induction files as [|[k f] files IH]; intros prev Hwf.
  - reflexivity.
  - inversion Hwf as [|? ? Hf Hrest]; subst. simpl in Hf.
    destruct f as [|v [ports|]]; try discriminate.
    simpl. unfold merged in IH. now rewrite IH.
Qed.

Lemma In_merged (x : string) (files : list (string * PortFile))
    (prev : list string) :
  In x (merged files prev) <->
  In x prev \/ exists k f, In (k, f) files /\ In x (entriesOf f).
Proof.
  revert prev. induction files as [|[k f] files IH]; intros prev.
  - simpl. split; [tauto|]. intros [H|(? & ? & [] & _)]. exact H.
  - unfold merged in *. simpl. rewrite IH, In_pushNew. split.
    + intros [[H|H]|(k' & f' & H & H')]; eauto 6.
    + intros [H|(k' & f' & [[= -> ->]|H] & H')]; eauto 6.
Qed.

(** A lookup that goes wrong names the tracked value that has no [ports]. *)
Lemma reducePortFiles_Throw (files : list (string * PortFile))
    (prev : list string) (e : JsError) :
  reducePortFiles (map snd files) prev = Throw e ->
  exists k f, In (k, f) files /\ hasPorts f = false.
Proof.
  revert prev. induction files as [|[k f] files IH]; intros prev; simpl.
  - discriminate.
  - destruct f as [|v [ports|]]; simpl.
    + intros _. exists k, PFUndefined. auto.
    + intros H. apply IH in H as (k' & f' & H & H'). eauto.
    + intros _. exists k, (PFObject v None). auto.
Qed.

(** ** The directory built from the merged list *)

Lemma resolveFrom_cons (key entry : string) (entries : list string)
    (init : option string) :
  resolveFrom key (entry :: entries) init =
  resolveFrom key entries
    (match parsePortOrPortMapping entry with
     | Some (k, v) => if String.eqb k key then Some v else init
     | None => init
     end).
Proof. reflexivity. Qed.

Lemma fold_insert_lookup (key : string) (entries : list string)
    (m : gmap string string) :
  fold_left (fun prev curr =>
               match parsePortOrPortMapping curr with
               | None => prev
               | Some (k, v) => <[k := v]> prev
               end) entries m !! key
  = resolveFrom key entries (m !! key).
Proof.
  revert m. induction entries as [|e entries IH]; intros m; [reflexivity|].
  rewrite resolveFrom_cons. cbn [fold_left]. rewrite IH.
  destruct (parsePortOrPortMapping e) as [[k v]|]; [|reflexivity].
  destruct (String.eqb k key) eqn:E.
  - apply String.eqb_eq in E. subst k. now rewrite lookup_insert_eq.
  - apply String.eqb_neq in E. now rewrite lookup_insert_ne.
Qed.

Lemma portFileToPorts_lookup (key : string) (entries : list string) :
  portFileToPorts entries !! key = resolveFrom key entries None.
Proof.
  unfold portFileToPorts. rewrite fold_insert_lookup.
  now rewrite lookup_empty.
Qed.

Lemma resolveFrom_filter (key : string) (entries : list string)
    (init : option string) :
  resolveFrom key (List.filter (hasKey key) entries) init
  = resolveFrom key entries init.
Proof.
  revert init. induction entries as [|e entries IH]; intros init; [reflexivity|].
  cbn [List.filter]. rewrite resolveFrom_cons. unfold hasKey at 1.
  destruct (parsePortOrPortMapping e) as [[k v]|] eqn:P.
  - destruct (String.eqb k key) eqn:E.
    + rewrite resolveFrom_cons, P, E. apply IH.
    + apply IH.
  - apply IH.
Qed.

Lemma resolveFrom_Some (key port : string) (entries : list string)
    (init : option string) :
  resolveFrom key entries init = Some port ->
  init = Some port
  \/ exists entry, In entry entries
                   /\ parsePortOrPortMapping entry = Some (key, port).
Proof.
  revert init. induction entries as [|e entries IH]; intros init.
  - simpl. auto.
  - rewrite resolveFrom_cons.
    intros H. apply IH in H as [H|(e' & H & H')]; [|simpl; eauto].
    destruct (parsePortOrPortMapping e) as [[k v]|] eqn:P; [|auto].
    destruct (String.eqb k key) eqn:E; [|auto].
    apply String.eqb_eq in E. subst k. injection H as ->. simpl. eauto.
Qed.

Lemma resolveFrom_declared (key port : string) (entries : list string)
    (init : option string) (entry : string) :
  In entry entries ->
  parsePortOrPortMapping entry = Some (key, port) ->
  exists p, resolveFrom key entries init = Some p.
Proof.
  revert init. induction entries as [|e entries IH]; intros init; [intros []|].
  intros [->|Hin] P.
  - rewrite resolveFrom_cons, P, String.eqb_refl.
    clear. generalize port.
    induction entries as [|e' entries IH']; intros q; [simpl; eauto|].
    rewrite resolveFrom_cons.
    destruct (parsePortOrPortMapping e') as [[k v]|]; [|apply IH'].
    destruct (String.eqb k key); apply IH'.
  - rewrite resolveFrom_cons. now apply IH.
Qed.

(** ** Lookups of a started, well-formed instance *)

Lemma getPublicPort_wellFormed (this : PublicPorts) (token : string) :
  searchPath this <> None ->
  wellFormed this ->
  getPublicPort this token =
  Ok (getProperty (portFileToPorts (merged (portFiles this) [])) token).
Proof.
  intros Hs Hwf. unfold getPublicPort, getPublicPorts, mergePortFiles.
  destruct (searchPath this); [|congruence].
  now rewrite (reducePortFiles_merged _ _ Hwf).
Qed.

Lemma getProperty_own (ports : gmap string string) (key : string) :
  Js.inherited key = false ->
  getProperty ports key = PortStr <$> (ports !! key).
Proof.
  intros H. unfold getProperty. destruct (ports !! key); [reflexivity|].
  now rewrite H.
Qed.

(** ** Schema validation *)

Lemma joiString_None (y : Yaml) : joiString y = None <-> ~ nonEmptyString y.
Proof.
  unfold nonEmptyString. split.
  - intros H (a & s & ->). discriminate.
  - intros H. destruct y as [| | | |[|a s]| | |]; try reflexivity.
    exfalso. apply H. eauto.
Qed.

Lemma joiStrings_None (items : list Yaml) :
  joiStrings items = None <-> exists y, In y items /\ ~ nonEmptyString y.
Proof.
  induction items as [|y items IH].
  - simpl. split; [discriminate|]. intros (? & [] & _).
  - simpl. destruct (joiString y) eqn:Hy.
    + destruct (joiStrings items) eqn:Hi.
      * split; [discriminate|]. intros (z & [<-|Hz] & Hn).
        -- apply joiString_None in Hn. congruence.
        -- assert (None = None :> option (list string)) as E by reflexivity.
           destruct IH as [_ IH]. discriminate IH. eauto.
      * split; [|reflexivity]. intros _.
        destruct IH as [IH _]. destruct (IH eq_refl) as (z & Hz & Hn). eauto.
    + split; [|reflexivity]. intros _. apply joiString_None in Hy. eauto.
Qed.

Lemma forallb_false_inv {A : Type} (f : A -> bool) (l : list A) :
  forallb f l = false -> exists x, In x l /\ f x = false.
Proof.
  induction l as [|x l IH]; simpl; [discriminate|].
  destruct (f x) eqn:E; simpl.
  - intros H. destruct (IH H) as (y & Hy & Hf). eauto.
  - eauto.
Qed.

(** The validation fails exactly on the mismatching shapes. *)
Lemma portFileSchema_validate_None (yamlData : Yaml) :
  portFileSchema_validate yamlData = None <-> schemaMismatch yamlData.
Proof.
  split.
  - destruct yamlData as [| | | | | |fields|]; try (intros _; constructor).
    + discriminate.
    + simpl. destruct (forallb _ fields) eqn:Hk.
      * destruct (field "version" fields) as [v|] eqn:Hv;
          destruct (field "ports" fields) as [p|] eqn:Hp; try discriminate.
        -- destruct p as [| | | | |items| |];
             try (intros _; eapply mismatch_ports; [eassumption|discriminate]).
           destruct (joiString v) eqn:Jv.
           ++ destruct (joiStrings items) eqn:Ji; [discriminate|]. intros _.
              apply joiStrings_None in Ji as (y & Hy & Hn).
              eapply mismatch_item; eassumption.
           ++ intros _. apply joiString_None in Jv.
              eapply mismatch_version; eassumption.
        -- destruct (joiString v) eqn:Jv; [discriminate|]. intros _.
           apply joiString_None in Jv. eapply mismatch_version; eassumption.
        -- destruct p as [| | | | |items| |];
             try (intros _; eapply mismatch_ports; [eassumption|discriminate]).
           destruct (joiStrings items) eqn:Ji; [discriminate|]. intros _.
           apply joiStrings_None in Ji as (y & Hy & Hn).
           eapply mismatch_item; eassumption.
      * intros _. apply forallb_false_inv in Hk as ([k y] & Hin & Hf).
        simpl in Hf.
        apply orb_false_iff in Hf as [H1 H2].
        apply String.eqb_neq in H1, H2.
        eapply mismatch_key; eassumption.
    + discriminate.
  - intros H. destruct H as [| | | | |fields k y Hin H1 H2|fields y Hv Hn
                             |fields y Hp Hn|fields items y Hp Hin Hn];
      try reflexivity; simpl.
    + destruct (forallb _ fields) eqn:Hk; [|reflexivity].
      rewrite forallb_forall in Hk. specialize (Hk _ Hin). simpl in Hk.
      apply orb_true_iff in Hk as [Hk|Hk]; apply String.eqb_eq in Hk; congruence.
    + destruct (forallb _ fields); [|reflexivity]. rewrite Hv.
      apply joiString_None in Hn. rewrite Hn.
      destruct (field "ports" fields) as [[| | | | |items| |]|]; reflexivity.
    + destruct (forallb _ fields); [|reflexivity]. rewrite Hp.
      destruct y as [| | | | |items| |];
        try (destruct (field "version" fields); reflexivity).
      now destruct (Hn items).
    + destruct (forallb _ fields); [|reflexivity]. rewrite Hp.
      assert (joiStrings items = None) as -> by (apply joiStrings_None; eauto).
      destruct (field "version" fields) as [v|]; [|reflexivity].
      destruct (joiString v); reflexivity.
Qed.

(** ** The watcher *)

Lemma assign_idempotent {A : Type} (key : string) (value : A)
    (obj : list (string * A)) :
  assign key value (assign key value obj) = assign key value obj.
Proof.
  induction obj as [|[k v] obj IH]; simpl.
  - now rewrite String.eqb_refl.
  - destruct (String.eqb k key) eqn:E; simpl.
    + now rewrite String.eqb_refl.
    + now rewrite E, IH.
Qed.

(** C2 (as amended): reading a manifest never throws; when the file cannot
    be read or parsed as YAML, or when its value mismatches the schema
    (null, a scalar or a sequence at the top, an unknown key, [ports: null],
    wrong types),
    [getPublicPortsFromFile] returns [null] and [putFile] leaves the
    tracked set as it was, so every lookup answers as before. *)
Theorem malformed_file_leaves_tracked_set (fs : FileSystem)
    (relPath : string) (this : PublicPorts) :
  fs (getFullPath this relPath) = None
  \/ (exists yamlData, fs (getFullPath this relPath) = Some yamlData
                       /\ schemaMismatch yamlData) ->
  getPublicPortsFromFile fs this relPath = None
  /\ putFile fs relPath this = this
  /\ forall token,
       getPublicPort (putFile fs relPath this) token = getPublicPort this token.
Proof.
  intros H.
  assert (getPublicPortsFromFile fs this relPath = None) as Hnull.
  { unfold getPublicPortsFromFile. destruct H as [->|(y & -> & Hm)].
    - reflexivity.
    - now apply portFileSchema_validate_None. }
  assert (putFile fs relPath this = this) as Hput.
  { unfold putFile. rewrite Hnull. now destruct (negb _). }
  rewrite Hput. auto.
Qed.

Lemma malformed_file_leaves_tracked_set_witness :
  (portsNull (getFullPath tracking8000 ".brev/ports.yaml") = None
   \/ exists yamlData,
        portsNull (getFullPath tracking8000 ".brev/ports.yaml") = Some yamlData
        /\ schemaMismatch yamlData)
  /\ getPublicPortsFromFile portsNull tracking8000 ".brev/ports.yaml" = None
  /\ putFile portsNull ".brev/ports.yaml" tracking8000 = tracking8000.
Proof.
  assert (portsNull (getFullPath tracking8000 ".brev/ports.yaml") = None
          \/ exists yamlData,
               portsNull (getFullPath tracking8000 ".brev/ports.yaml")
               = Some yamlData /\ schemaMismatch yamlData) as H.
  { right. exists (YMap [("ports", YNull)]). split; [reflexivity|].
    apply mismatch_ports with (y := YNull); [reflexivity | discriminate]. }
  split; [exact H|].
  destruct (malformed_file_leaves_tracked_set
              portsNull ".brev/ports.yaml" tracking8000 H) as (H1 & H2 & _).
  split; assumption.
Defined.

(** C2 (as stated) fails: a tracked manifest that turns into invalid YAML
    is not replaced by an empty document; the parser returns [null] and the
    file keeps contributing its previous entries. *)
Lemma broken_yaml_keeps_previous_entries :
  getPublicPortsFromFile brokenYaml tracking8000 ".brev/ports.yaml" = None
  /\ portFiles (putFile brokenYaml ".brev/ports.yaml" tracking8000)
     = [(".brev/ports.yaml", PFObject (Some "1") (Some ["8000"]))]
  /\ getPublicPort (putFile brokenYaml ".brev/ports.yaml" tracking8000) "8000"
     = Ok (Some (PortStr "8000")).
Proof. repeat split; vm_compute; reflexivity. Qed.

(** A manifest without [ports], an empty one, or one that is a timestamp,
    passes the schema and is stored as it is; every later lookup then throws
    inside [mergePortFiles]. *)
Lemma manifest_without_ports_breaks_lookups :
  getPublicPort
    (putFile (files [("/w/.brev/ports.yaml", YMap [("version", YStr "1")])])
       ".brev/ports.yaml" tracking8000) "8000"
  = Throw (TypeError "Cannot read properties of undefined (reading 'forEach')")
  /\ getPublicPort
       (putFile (files [("/w/.brev/ports.yaml", YUndefined)])
          ".brev/ports.yaml" tracking8000) "8000"
     = Throw (TypeError "Cannot read properties of undefined (reading 'ports')")
  /\ getPublicPort
       (putFile (files [("/w/.brev/ports.yaml", YDate)])
          ".brev/ports.yaml" tracking8000) "8000"
     = Throw (TypeError "Cannot read properties of undefined (reading 'forEach')").
Proof. repeat split; reflexivity. Qed.

(** C6: a lookup on an instance whose [searchPath] is still undefined, as it
    is until [startWatch] is called, throws; it returns neither [null] nor a
    port, and both handlers end with that exception for every routed
    host. *)
Theorem lookup_before_startWatch_throws (this : PublicPorts) (token : string) :
  searchPath this = None ->
  getPublicPort this token
  = Throw (Error "searchPath not defined -- startWatch not yet called")
  /\ forall (authenticated : Request -> bool) (normalize : string -> string)
            (req : Request),
      maybeProxy req = Some token ->
      router_all authenticated normalize this req
      = Failed (Error "searchPath not defined -- startWatch not yet called")
      /\ wsRouter_ws authenticated this req
         = Failed (Error "searchPath not defined -- startWatch not yet called").
Proof.
  intros H.
  assert (getPublicPort this token
          = Throw (Error "searchPath not defined -- startWatch not yet called"))
    as E.
  { unfold getPublicPort, getPublicPorts. now rewrite H. }
  split; [exact E|].
  intros authenticated normalize req Hr.
  unfold router_all, wsRouter_ws. rewrite Hr.
  destruct token as [|a s].
  - unfold maybeProxy in Hr.
    destruct (String.eqb (hd "" _) "") eqn:X; simpl in Hr; [discriminate|].
    destruct (negb _); [discriminate|].
    injection Hr as Hr. rewrite Hr in X. discriminate.
  - now rewrite E.
Qed.

Lemma lookup_before_startWatch_throws_witness :
  searchPath (new_PublicPorts defaultPortsGlob) = None
  /\ getPublicPort (new_PublicPorts defaultPortsGlob) "8080"
     = Throw (Error "searchPath not defined -- startWatch not yet called").
Proof.
  split; [reflexivity|].
  apply (lookup_before_startWatch_throws
           (new_PublicPorts defaultPortsGlob) "8080" eq_refl).
Defined.

(** C7: handling the add or change of a file twice, with the same contents
    on disk, leaves the tracked set, hence every lookup, as handling it
    once. *)
Theorem putFile_idempotent (fs : FileSystem) (relPath : string)
    (this : PublicPorts) :
  putFile fs relPath (putFile fs relPath this) = putFile fs relPath this
  /\ mergePortFiles (putFile fs relPath (putFile fs relPath this))
     = mergePortFiles (putFile fs relPath this)
  /\ forall token,
       getPublicPort (putFile fs relPath (putFile fs relPath this)) token
       = getPublicPort (putFile fs relPath this) token.
Proof.
  assert (putFile fs relPath (putFile fs relPath this) = putFile fs relPath this)
    as E.
  { unfold putFile at 2.
    destruct (negb (didMatchGlob this relPath)) eqn:G.
    - unfold putFile. now rewrite G.
    - destruct (getPublicPortsFromFile fs this relPath) as [f|] eqn:F.
      + unfold putFile, didMatchGlob, getPublicPortsFromFile, getFullPath
          in *. simpl. rewrite G, F. now rewrite assign_idempotent.
      + unfold putFile. now rewrite G, F. }
  rewrite E. auto.
Qed.

(** ** String tests against their meaning *)

Lemma startsWith_spec (prefix s : string) :
  Js.startsWith prefix s = true <-> hasPrefix prefix s.
Proof.
  unfold hasPrefix. revert s.
  induction prefix as [|a prefix IH]; intros s; simpl.
  - split; [eauto|reflexivity].
  - destruct s as [|b s].
    + split; [discriminate|]. intros (rest & H). discriminate.
    + destruct (Ascii.eqb a b) eqn:E.
      * apply Ascii.eqb_eq in E. subst b. rewrite IH. split.
        -- intros (rest & ->). eauto.
        -- intros (rest & [= ->]). eauto.
      * apply Ascii.eqb_neq in E. split; [discriminate|].
        intros (rest & [= <- _]). congruence.
Qed.

Lemma includes_spec (needle s : string) :
  Js.includes needle s = true <-> contains needle s.
Proof.
  unfold contains. induction s as [|c s IH]; simpl.
  - destruct (Js.startsWith needle "") eqn:E.
    + apply startsWith_spec in E as (rest & E).
      split; [|reflexivity]. intros _. exists "", rest. exact E.
    + split; [discriminate|]. intros ([|? ?] & after & H); [|discriminate].
      simpl in H. assert (Js.startsWith needle "" = true); [|congruence].
      apply startsWith_spec. now exists after.
  - destruct (Js.startsWith needle (String c s)) eqn:E.
    + apply startsWith_spec in E as (rest & E).
      split; [|reflexivity]. intros _. exists "", rest. exact E.
    + rewrite IH. split.
      * intros (before & after & ->). now exists (String c before), after.
      * intros ([|b before] & after & H).
        -- simpl in H.
           assert (Js.startsWith needle (String c s) = true); [|congruence].
           apply startsWith_spec. now exists after.
        -- injection H as -> ->. eauto.
Qed.

(** ** The handlers *)

Lemma maybeProxy_nonempty (req : Request) (port : string) :
  maybeProxy req = Some port -> exists a s, port = String a s.
Proof.
  unfold maybeProxy.
  destruct (hd "" (Js.split (separator req) (domain req))) as [|a s] eqn:E.
  - simpl. discriminate.
  - destruct (_ || _); [discriminate|]. intros [= <-]. eauto.
Qed.

Lemma reducePortFiles_Ok (files : list (string * PortFile))
    (prev entries : list string) :
  reducePortFiles (map snd files) prev = Ok entries ->
  Forall (fun kv => hasPorts (snd kv) = true) files
  /\ entries = merged files prev.
Proof.
  revert prev. induction files as [|[k f] files IH]; intros prev; simpl.
  - intros [= <-]. split; [constructor|reflexivity].
  - destruct f as [|v [ports|]]; simpl; try discriminate.
    intros H. apply IH in H as [Hwf ->]. split; [|reflexivity].
    constructor; [reflexivity|assumption].
Qed.

(** A lookup that returns was made on a started, well-formed instance. *)
Lemma getPublicPort_Ok (this : PublicPorts) (token : string)
    (found : option PortValue) :
  getPublicPort this token = Ok found ->
  searchPath this <> None /\ wellFormed this
  /\ found = getProperty (portFileToPorts (merged (portFiles this) [])) token.
Proof.
  unfold getPublicPort, getPublicPorts, mergePortFiles.
  destruct (searchPath this); [|discriminate].
  destruct (reducePortFiles _ []) as [entries|] eqn:R; [|discriminate].
  apply reducePortFiles_Ok in R as [Hwf ->]. simpl.
  intros [= <-]. repeat split; [discriminate|assumption].
Qed.

Lemma staticAsset_test (req : Request) :
  Js.startsWith "/static/" (path req) && String.eqb (method req) "GET" = true
  <-> staticAsset req.
Proof.
  unfold staticAsset.
  now rewrite andb_true_iff, startsWith_spec, String.eqb_eq.
Qed.

Lemma acceptsHtml_test (req : Request) :
  match accept req with
  | Some a => negb (String.eqb a "") && Js.includes "text/html" a
  | None => false
  end = true
  <-> acceptsHtml req.
Proof.
  unfold acceptsHtml. destruct (accept req) as [a|].
  - rewrite andb_true_iff, includes_spec. split.
    + intros [_ H]. eauto.
    + intros (? & [= <-] & H). split; [|assumption].
      destruct H as ([|? ?] & after & ->); reflexivity.
  - split; [discriminate|]. intros (? & [=] & _).
Qed.

Section Routed.

Variable authenticated : Request -> bool.
Variable normalize : string -> string.
Variable this : PublicPorts.
Variable req : Request.
Variable port : string.
Variable found : option PortValue.
Hypothesis routed : maybeProxy req = Some port.
Hypothesis resolved : getPublicPort this port = Ok found.

(** The handler once the host is routed and the lookup has returned. *)
Lemma router_all_routed :
  router_all authenticated normalize this req =
  if negb (authenticated req) && negb (isSome found) then
    if Js.startsWith "/static/" (path req) && String.eqb (method req) "GET"
    then Next
    else if match accept req with
            | Some a => negb (String.eqb a "") && Js.includes "text/html" a
            | None => false
            end
    then if Js.includes "/login" (path req) then Next
         else RedirectLogin
                (if String.eqb (normalize (baseUrl req +:+ path req)) "/"
                 then None
                 else Some (normalize (baseUrl req +:+ path req)))
    else Unauthorized
  else ProxyWeb (proxyOptions found port req).
Proof.
  unfold router_all. rewrite routed.
  destruct (maybeProxy_nonempty _ _ routed) as (a & s & ->).
  now rewrite resolved.
Qed.

Lemma wsRouter_ws_routed :
  wsRouter_ws authenticated this req =
  if negb (authenticated req) && negb (isSome found) then Unauthorized
  else ProxyWs (proxyOptions found port req).
Proof.
  unfold wsRouter_ws. rewrite routed.
  destruct (maybeProxy_nonempty _ _ routed) as (a & s & ->).
  now rewrite resolved.
Qed.

End Routed.

(** C4: the decision of the HTTP handler once the host is routed and the
    lookup has returned [found] (public when not [null]).  Allow is either
    the forwarder or [next()]; the rows are read in the order of the code,
    so the last two are for requests that are not static-asset GETs. *)
Theorem gate_decision_table (authenticated : Request -> bool)
    (normalize : string -> string) (this : PublicPorts) (req : Request)
    (port : string) (found : option PortValue) :
  maybeProxy req = Some port ->
  getPublicPort this port = Ok found ->
  let out := router_all authenticated normalize this req in
  let target := normalize (baseUrl req +:+ path req) in
  (authenticated req = false -> found <> None ->
     out = ProxyWeb (proxyOptions found port req))
  /\ (authenticated req = true ->
       out = ProxyWeb (proxyOptions found port req))
  /\ (authenticated req = false -> found = None -> staticAsset req ->
       out = Next)
  /\ (authenticated req = false -> found = None -> acceptsHtml req ->
       contains "/login" (path req) ->
       out = Next)
  /\ (authenticated req = false -> found = None -> ~ staticAsset req ->
       acceptsHtml req -> ~ contains "/login" (path req) ->
       (target <> "/" -> out = RedirectLogin (Some target))
       /\ (target = "/" -> out = RedirectLogin None))
  /\ (authenticated req = false -> found = None -> ~ staticAsset req ->
       ~ acceptsHtml req ->
       out = Unauthorized).
Proof.
  intros Hr Hf out target. subst out target.
  rewrite (router_all_routed _ _ _ _ _ _ Hr Hf).
  pose proof (staticAsset_test req) as Hs.
  pose proof (acceptsHtml_test req) as Hh.
  pose proof (includes_spec "/login" (path req)) as Hl.
  destruct (Js.startsWith "/static/" (path req) && String.eqb (method req) "GET").
  2: destruct (match accept req with Some _ => _ | None => _ end).
  2: destruct (Js.includes "/login" (path req)).
  all: repeat split; intros; subst; simpl;
    repeat match goal with
           | H : ?a = ?b |- context [?a] => rewrite H
           end; simpl;
    try reflexivity;
    try (destruct found; [reflexivity|congruence]);
    try (exfalso; intuition congruence).
  - destruct (String.eqb _ "/") eqn:E; [|reflexivity].
    apply String.eqb_eq in E. congruence.
Qed.

Lemma gate_decision_table_witness :
  maybeProxy (request "3000.example.com" "GET" "/foo" (Some "text/html"))
  = Some "3000"
  /\ getPublicPort tracking8000 "3000" = Ok None
  /\ router_all anonymous normalPath tracking8000
       (request "3000.example.com" "GET" "/foo" (Some "text/html"))
     = RedirectLogin (Some "/foo").
Proof.
  split; [reflexivity|]. split; [reflexivity|].
  refine (proj1 (proj1 (proj2 (proj2 (proj2 (proj2
    (gate_decision_table anonymous normalPath tracking8000
       (request "3000.example.com" "GET" "/foo" (Some "text/html"))
       "3000" None eq_refl eq_refl))))) eq_refl eq_refl _ _ _) _).
  - intros [H _]. apply startsWith_spec in H. discriminate.
  - exists "text/html". split; [reflexivity|]. now exists "", "".
  - intros H. apply includes_spec in H. discriminate.
  - discriminate.
Defined.




(** ** The host router *)

Lemma freeOf_tail (c a : ascii) (s : string) :
  freeOf c (String a s) -> a <> c /\ freeOf c s.
Proof.
  intros H. split.
  - intros ->. now apply (H "" s).
  - intros before after ->. now apply (H (String a before) after).
Qed.

Lemma freeOf_cons (c a : ascii) (s : string) :
  a <> c -> freeOf c s -> freeOf c (String a s).
Proof.
  intros Hne H [|b before] after; simpl; intros [= E1 E2].
  - congruence.
  - now apply (H before after).
Qed.

Lemma freeOf_empty (c : ascii) : freeOf c "".
Proof. intros [|b before] after; discriminate. Qed.

(** Splitting a separator-free token followed by the separator. *)
Lemma split_token (sep : ascii) (token rest : string) :
  freeOf sep token ->
  Js.split sep (token +:+ String sep rest) = token :: Js.split sep rest.
Proof.
  induction token as [|a token IH]; intros H; simpl.
  - now rewrite Ascii.eqb_refl.
  - apply freeOf_tail in H as [Hne H].
    apply Ascii.eqb_neq in Hne. rewrite Hne. now rewrite IH.
Qed.

Lemma split_free (sep : ascii) (token : string) :
  freeOf sep token -> Js.split sep token = [token].
Proof.
  induction token as [|a token IH]; intros H; simpl; [reflexivity|].
  apply freeOf_tail in H as [Hne H].
  apply Ascii.eqb_neq in Hne. rewrite Hne. now rewrite IH.
Qed.

Lemma hd_split_free (sep : ascii) (s : string) :
  freeOf sep (hd "" (Js.split sep s)).
Proof.
  induction s as [|a s IH]; simpl; [apply freeOf_empty|].
  destruct (Ascii.eqb a sep) eqn:E; simpl; [apply freeOf_empty|].
  apply Ascii.eqb_neq in E.
  destruct (Js.split sep s) as [|w ws]; simpl in *.
  - apply freeOf_cons; [assumption|apply freeOf_empty].
  - now apply freeOf_cons.
Qed.

(** A string is its first segment, alone or followed by the separator and
    the other segments joined. *)
Lemma split_form (sep : ascii) (s : string) :
  (tl (Js.split sep s) = [] /\ s = hd "" (Js.split sep s))
  \/ (tl (Js.split sep s) <> []
      /\ s = hd "" (Js.split sep s)
             +:+ String sep (Js.join sep (tl (Js.split sep s)))).
Proof.
  pose proof (join_split sep s) as J.
  pose proof (split_not_nil sep s) as N.
  destruct (Js.split sep s) as [|w [|w' ws]]; [congruence| |].
  - left. simpl in *. auto.
  - right. split; [discriminate|]. now rewrite <- J.
Qed.

(** The host name without its port: all there is before the first colon. *)
Lemma upTo_spec (c : ascii) (s : string) :
  freeOf c (Js.upTo c s)
  /\ (s = Js.upTo c s \/ exists rest, s = Js.upTo c s +:+ String c rest).
Proof.
  induction s as [|a s [IHf IHs]]; simpl.
  - split; [apply freeOf_empty|now left].
  - destruct (Ascii.eqb a c) eqn:E.
    + apply Ascii.eqb_eq in E. subst a.
      split; [apply freeOf_empty|]. right. now exists s.
    + apply Ascii.eqb_neq in E. split; [now apply freeOf_cons|].
      destruct IHs as [IHs|(rest & IHs)].
      * left. now f_equal.
      * right. exists rest.
        change (String a s = String a (Js.upTo c s +:+ String c rest)).
        congruence.
Qed.

Lemma maybeProxy_segments (req : Request) (token : string) :
  maybeProxy req = Some token <->
  token = hd "" (Js.split (separator req) (domain req))
  /\ token <> ""
  /\ In (Js.join (separator req)
           (tl (Js.split (separator req) (domain req))))
        (proxy_domain (args req)).
Proof.
  unfold maybeProxy.
  set (parts := Js.split (separator req) (domain req)).
  destruct (String.eqb (hd "" parts) "") eqn:E; simpl.
  - apply String.eqb_eq in E. split; [discriminate|].
    intros (-> & H & _). congruence.
  - apply String.eqb_neq in E.
    destruct (existsb _ (proxy_domain (args req))) eqn:X; simpl.
    + apply existsb_eqb_In in X. split.
      * intros [= <-]. auto.
      * intros (-> & _). reflexivity.
    + apply existsb_eqb_not_In in X. split; [discriminate|].
      intros (_ & _ & H). contradiction.
Qed.

(** C3 (as amended): the router returns a token exactly when the first
    segment of the host name (port stripped) is that token, is not empty,
    and the other segments joined again are one of the configured domains;
    that is, when the host name is the non-empty, separator-free token
    followed by the separator and a configured domain (or the token alone,
    should the empty domain be configured), the host name being the header
    up to its first colon. *)
Theorem maybeProxy_exact_match :
  (forall (req : Request) (token : string),
      (maybeProxy req = Some token <->
       token = hd "" (Js.split (separator req) (domain req))
       /\ token <> ""
       /\ In (Js.join (separator req)
                (tl (Js.split (separator req) (domain req))))
             (proxy_domain (args req)))
      /\ (maybeProxy req = Some token <->
          token <> ""
          /\ freeOf (separator req) token
          /\ ((domain req = token /\ In "" (proxy_domain (args req)))
              \/ exists suffix,
                   In suffix (proxy_domain (args req))
                   /\ domain req = token +:+ String (separator req) suffix))
      /\ freeOf ":" (domain req)
      /\ (default "" (host req) = domain req
          \/ exists port,
               default "" (host req) = domain req +:+ String ":" port))
  /\ maybeProxy (request "8080.example.com" "GET" "/" None) = Some "8080"
  /\ maybeProxy (request "8080.example.com:443" "GET" "/" None) = Some "8080"
  /\ maybeProxy (request "8080.sub.example.com" "GET" "/" None) = None
  /\ maybeProxy (request "sub.8080.example.com" "GET" "/" None) = None.
Proof.
  split; [|repeat split; reflexivity].
  intros req token. split; [apply maybeProxy_segments|].
  split; [|apply upTo_spec].
  rewrite maybeProxy_segments. split.
  - intros (-> & Hne & Hin). split; [assumption|].
    split; [apply hd_split_free|].
    destruct (split_form (separator req) (domain req)) as [[Ht E]|[Ht E]].
    + left. rewrite Ht in Hin. simpl in Hin. split; [now symmetry|assumption].
    + right. eexists. split; [exact Hin|exact E].
  - intros (Hne & Hfree & [[E Hin]|(suffix & Hin & E)]); rewrite E.
    + rewrite (split_free _ _ Hfree). simpl. auto.
    + rewrite (split_token _ _ _ Hfree). simpl.
      rewrite join_split. auto.
Qed.

(** C3 (as stated) fails: the segments after the first one match the
    configured domain, yet nothing is routed, the first one being empty. *)
Lemma empty_first_segment_not_routed :
  In (Js.join (separator (request ".example.com" "GET" "/" None))
        (tl (Js.split (separator (request ".example.com" "GET" "/" None))
               (domain (request ".example.com" "GET" "/" None)))))
     (proxy_domain (args (request ".example.com" "GET" "/" None)))
  /\ hd "" (Js.split (separator (request ".example.com" "GET" "/" None))
              (domain (request ".example.com" "GET" "/" None))) = ""
  /\ maybeProxy (request ".example.com" "GET" "/" None) = None.
Proof. split; [left; reflexivity|]. split; reflexivity. Qed.

(** ** The directory *)

Lemma isPort_isAlias (s : string) : isPort s -> isAlias s.
Proof.
  unfold isPort, isAlias, Js.plus. destruct s as [|a s]; [discriminate|].
  generalize (String a s). clear. intros s.
  induction s as [|a s IH]; simpl; [reflexivity|].
  rewrite !andb_true_iff. intros [-> H]. rewrite orb_true_r. auto.
Qed.

Lemma declares_isAlias (file : PortFile) (token port : string) :
  declares file token port -> isAlias token /\ isPort port.
Proof.
  intros (entry & _ & H). apply parsePortOrPortMapping_Some in H.
  destruct H as [[(_ & _ & H) ->]|(_ & _ & Ha & _ & Hp)].
  - split; [now apply isPort_isAlias|assumption].
  - now split.
Qed.

Lemma resolveFrom_merged (files : list (string * PortFile))
    (token port : string) :
  resolveFrom token (merged files []) None = Some port ->
  exists relPath file, In (relPath, file) files /\ declares file token port.
Proof.
  intros H. apply resolveFrom_Some in H as [H|(entry & Hin & P)]; [discriminate|].
  apply In_merged in Hin as [[]|(k & f & Hf & He)].
  exists k, f. split; [assumption|]. now exists entry.
Qed.

Lemma merged_resolves (files : list (string * PortFile))
    (relPath : string) (file : PortFile) (token port : string) :
  In (relPath, file) files -> declares file token port ->
  exists p, resolveFrom token (merged files []) None = Some p.
Proof.
  intros Hf (entry & He & P).
  apply resolveFrom_declared with (entry := entry) (port := port); [|assumption].
  apply In_merged. right. eauto.
Qed.

(** The two ways a lookup throws. *)
Lemma getPublicPort_Throw (this : PublicPorts) (token : string) (e : JsError) :
  getPublicPort this token = Throw e ->
  searchPath this = None
  \/ exists relPath file,
       In (relPath, file) (portFiles this) /\ hasPorts file = false.
Proof.
  unfold getPublicPort, getPublicPorts, mergePortFiles.
  destruct (searchPath this); [|now left].
  destruct (reducePortFiles _ []) as [entries|e'] eqn:R; [discriminate|].
  intros _. right. eapply reducePortFiles_Throw, R.
Qed.

(** A watching instance has its [searchPath]. *)
Lemma watching_searchPath (this : PublicPorts) :
  watching this -> searchPath this <> None.
Proof.
  induction 1 as [glob path|path this _ _|fs ev this _ IH]; try discriminate.
  destruct ev; simpl; unfold putFile, deleteFile;
    repeat match goal with
           | |- context [if ?b then _ else _] => destruct b
           | |- context [match ?o with Some _ => _ | None => _ end] => destruct o
           end; assumption.
Qed.

(** The lookup of a token that names no inherited member. *)
Lemma getPublicPort_own (this : PublicPorts) (token : string) :
  searchPath this <> None -> wellFormed this -> Js.inherited token = false ->
  getPublicPort this token
  = Ok (PortStr <$> resolveFrom token (merged (portFiles this) []) None).
Proof.
  intros Hs Hwf Hi. rewrite getPublicPort_wellFormed by assumption.
  now rewrite getProperty_own, portFileToPorts_lookup.
Qed.

(** Every string the directory returns passed [validatePort]. *)
Lemma own_port_is_validated (this : PublicPorts) (token port : string) :
  getPublicPort this token = Ok (Some (PortStr port)) ->
  isPort port
  /\ exists relPath file,
       In (relPath, file) (portFiles this) /\ declares file token port.
Proof.
  intros H. apply getPublicPort_Ok in H as (_ & _ & H).
  unfold getProperty in H. rewrite portFileToPorts_lookup in H.
  destruct (resolveFrom _ _ None) as [p|] eqn:R.
  - injection H as <-. apply resolveFrom_merged in R as (k & f & Hf & Hd).
    split; [|eauto]. eapply declares_isAlias, Hd.
  - destruct (Js.inherited token); discriminate.
Qed.

Lemma not_forwarded_when_private (authenticated : Request -> bool)
    (normalize : string -> string) (this : PublicPorts) (req : Request)
    (token : string) :
  maybeProxy req = Some token ->
  getPublicPort this token = Ok None ->
  authenticated req = false ->
  ~ forwarded (router_all authenticated normalize this req)
  /\ wsRouter_ws authenticated this req = Unauthorized.
Proof.
  intros Hr Hf Ha. split.
  - rewrite (router_all_routed _ _ _ _ _ _ Hr Hf), Ha. simpl.
    intros (o & [H|H]); revert H;
      repeat match goal with
             | |- context [if ?b then _ else _] => destruct b
             end; discriminate.
  - now rewrite (wsRouter_ws_routed _ _ _ _ _ Hr Hf), Ha.
Qed.

(** C1 (as amended): on a started instance whose tracked values all have a
    [ports] array, a token that names no member of [Object.prototype] is
    public exactly when some tracked document has an entry that is this
    token as a bare port, or a mapping with this token as its alias side.
    A token that is neither an entry nor the alias side of one, such as the
    target of a mapping, is not public, and an unauthenticated request for
    it is not forwarded. *)
Theorem public_iff_key_of_an_entry (authenticated : Request -> bool)
    (normalize : string -> string) (this : PublicPorts) (token : string) :
  searchPath this <> None ->
  wellFormed this ->
  Js.inherited token = false ->
  exists found,
    getPublicPort this token = Ok found
    /\ (found <> None <->
        exists relPath file entry,
          In (relPath, file) (portFiles this)
          /\ In entry (entriesOf file)
          /\ (barePort entry token \/ exists port, mapsAlias entry token port))
    /\ ((forall relPath file entry,
            In (relPath, file) (portFiles this) ->
            In entry (entriesOf file) ->
            entry <> token /\ nth 0 (Js.split ":" entry) "" <> token) ->
        found = None
        /\ forall req,
            maybeProxy req = Some token ->
            authenticated req = false ->
            ~ forwarded (router_all authenticated normalize this req)
            /\ wsRouter_ws authenticated this req = Unauthorized).
Proof.
  intros Hs Hwf Hi.
  pose proof (getPublicPort_own this token Hs Hwf Hi) as Hget.
  set (r := resolveFrom token (merged (portFiles this) []) None) in *.
  exists (PortStr <$> r). split; [exact Hget|].
  assert (r <> None <->
          exists relPath file entry,
            In (relPath, file) (portFiles this)
            /\ In entry (entriesOf file)
            /\ (barePort entry token \/ exists port, mapsAlias entry token port))
    as Hiff.
  { split.
    - destruct r as [p|] eqn:R; [intros _|congruence].
      apply resolveFrom_merged in R as (k & f & Hf & entry & He & P).
      exists k, f, entry. repeat split; try assumption.
      apply parsePortOrPortMapping_Some in P as [[P _]|P]; eauto.
    - intros (k & f & entry & Hf & He & Hd).
      assert (exists port, declares f token port) as (port & Hdecl).
      { destruct Hd as [Hb|(port & Hm)].
        - exists token, entry. split; [assumption|].
          apply parsePortOrPortMapping_Some. left. now split.
        - exists port, entry. split; [assumption|].
          apply parsePortOrPortMapping_Some. now right. }
      destruct (merged_resolves _ _ _ _ _ Hf Hdecl) as (p & Hp).
      subst r. rewrite Hp. discriminate. }
  split.
  - rewrite <- Hiff. destruct r; simpl; split; congruence.
  - intros Honly.
    assert (r = None) as Hr.
    { destruct r as [p|] eqn:R; [|reflexivity]. exfalso.
      assert (Some p <> None) as Hne by discriminate.
      apply Hiff in Hne as (k & f & entry & Hf & He & Hd).
      destruct (Honly k f entry Hf He) as [H1 H2].
      destruct Hd as [(_ & H & _)|(port & _ & H & _)]; congruence. }
    rewrite Hr in *. simpl in *. split; [reflexivity|].
    intros req Hm Ha.
    now apply not_forwarded_when_private with (token := token).
Qed.

Lemma public_iff_key_of_an_entry_witness :
  searchPath trackingAlias <> None
  /\ wellFormed trackingAlias
  /\ Js.inherited "8080" = false
  /\ getPublicPort trackingAlias "8080" = Ok None.
Proof.
  assert (searchPath trackingAlias <> None) as Hs by discriminate.
  assert (wellFormed trackingAlias) as Hwf.
  { repeat constructor. }
  assert (Js.inherited "8080" = false) as Hi by reflexivity.
  split; [exact Hs|]. split; [exact Hwf|]. split; [exact Hi|].
  destruct (public_iff_key_of_an_entry anonymous normalPath trackingAlias
              "8080" Hs Hwf Hi) as (found & Hget & _ & Honly).
  rewrite Hget. f_equal. apply Honly.
  intros relPath file entry Hf He.
  destruct Hf as [[= <- <-]|[]]. destruct He as [<-|[]].
  split; discriminate.
Defined.

(** C1 (as stated) fails: [myserver] is no bare port entry of the only
    tracked document, only the alias side of its mapping, yet it is public
    and the unauthenticated request is forwarded. *)
Lemma alias_side_is_public :
  portFiles trackingAlias
  = [(".brev/ports.yaml", PFObject (Some "1") (Some ["myserver:8080"]))]
  /\ getPublicPort trackingAlias "myserver" = Ok (Some (PortStr "8080"))
  /\ router_all anonymous normalPath trackingAlias
       (request "myserver.example.com" "POST" "/api" None)
     = ProxyWeb {| ignorePath := true;
                   mappedPort := PortStr "8080";
                   targetUrl := "/api" |}.
Proof. repeat split; vm_compute; reflexivity. Qed.

(** C5: once the host is routed and the lookup has returned, whatever is
    forwarded goes to the resolved port, or to the token itself when the
    lookup returned [null]; an authenticated request is always forwarded so.
    A resolved port comes from an entry whose key is the token, character
    for character: a token with a character outside [a-z0-9] that names no
    inherited member is never found. *)
Theorem forwarded_port_is_resolved_or_token (authenticated : Request -> bool)
    (normalize : string -> string) (this : PublicPorts) (req : Request)
    (token : string) (found : option PortValue) :
  maybeProxy req = Some token ->
  getPublicPort this token = Ok found ->
  (forall options,
      router_all authenticated normalize this req = ProxyWeb options
      \/ wsRouter_ws authenticated this req = ProxyWs options ->
      mappedPort options = match found with
                           | Some port => port
                           | None => PortStr token
                           end)
  /\ (authenticated req = true ->
      router_all authenticated normalize this req
      = ProxyWeb (proxyOptions found token req)
      /\ wsRouter_ws authenticated this req
         = ProxyWs (proxyOptions found token req))
  /\ (forall port,
        found = Some (PortStr port) ->
        exists relPath file,
          In (relPath, file) (portFiles this) /\ declares file token port)
  /\ (~ isAlias token -> Js.inherited token = false -> found = None).
Proof.
  intros Hr Hf.
  rewrite (router_all_routed _ _ _ _ _ _ Hr Hf).
  rewrite (wsRouter_ws_routed _ _ _ _ _ Hr Hf).
  split; [|split; [|split]].
  - intros options.
    destruct (negb (authenticated req) && negb (isSome found)).
    + intros [H|H]; [|discriminate]. revert H.
      repeat match goal with
             | |- context [if ?b then _ else _] => destruct b
             end; discriminate.
    + intros [[= <-]|[= <-]]; reflexivity.
  - intros ->. simpl. split; reflexivity.
  - intros port ->. now apply own_port_is_validated in Hf.
  - intros Hna Hi. destruct found as [[port|name]|]; [| |reflexivity].
    + apply own_port_is_validated in Hf as (_ & k & f & _ & Hd).
      apply declares_isAlias in Hd as [Ha _]. contradiction.
    + apply getPublicPort_Ok in Hf as (_ & _ & Hf). unfold getProperty in Hf.
      destruct (_ !! token); [discriminate|]. now rewrite Hi in Hf.
Qed.

Lemma forwarded_port_is_resolved_or_token_witness :
  maybeProxy (request "MYSERVER.example.com" "GET" "/" None) = Some "MYSERVER"
  /\ getPublicPort trackingAlias "MYSERVER" = Ok None
  /\ router_all loggedIn normalPath trackingAlias
       (request "MYSERVER.example.com" "GET" "/" None)
     = ProxyWeb {| ignorePath := true;
                   mappedPort := PortStr "MYSERVER";
                   targetUrl := "/" |}.
Proof.
  split; [reflexivity|]. split; [reflexivity|].
  apply (forwarded_port_is_resolved_or_token loggedIn normalPath
           trackingAlias (request "MYSERVER.example.com" "GET" "/" None)
           "MYSERVER" None eq_refl eq_refl).
  reflexivity.
Defined.

(** C10 fails on the code: [started] is a watching instance with no
    manifest, and the lookup of [constructor] returns the member every
    object literal inherits, which is no string of digits; the token counts
    as public and the unauthenticated request is forwarded. *)
Theorem inherited_member_returned_as_port :
  watching started
  /\ getPublicPort started "constructor" = Ok (Some (Inherited "constructor"))
  /\ router_all anonymous normalPath started
       (request "constructor.example.com" "GET" "/" None)
     = ProxyWeb {| ignorePath := true;
                   mappedPort := Inherited "constructor";
                   targetUrl := "/" |}.
Proof.
  split; [apply watching_start|]. split; reflexivity.
Qed.

(** ** Removing a file *)

Lemma In_delete_key {A : Type} (key k : string) (v : A)
    (obj : list (string * A)) :
  In (k, v) (delete_key key obj) <-> In (k, v) obj /\ k <> key.
Proof.
  induction obj as [|[k' v'] obj IH]; simpl; [tauto|].
  destruct (String.eqb k' key) eqn:E.
  - apply String.eqb_eq in E. subst k'. rewrite IH. split.
    + tauto.
    + intros [[[= <- _]|H] Hne]; [congruence|tauto].
  - apply String.eqb_neq in E. simpl. rewrite IH. split.
    + intros [[= <- <-]|[H Hne]]; auto.
    + intros [[H|H] Hne]; auto.
Qed.

Lemma wellFormed_deleteFile (relPath : string) (this : PublicPorts) :
  wellFormed this -> wellFormed (deleteFile relPath this).
Proof.
  unfold wellFormed, deleteFile. intros H.
  destruct (negb _); [assumption|]. simpl.
  rewrite List.Forall_forall in *. intros [k v] Hin.
  apply In_delete_key in Hin as [Hin _]. now apply H.
Qed.

(** Filtering commutes with the de-duplicating push. *)
Lemma filter_pushNew (P : string -> bool) (curr prev : list string) :
  List.filter P (pushNew prev curr)
  = pushNew (List.filter P prev) (List.filter P curr).
Proof.
  revert prev. induction curr as [|x curr IH]; intros prev; [reflexivity|].
  rewrite pushNew_cons, IH. cbn [List.filter].
  destruct (P x) eqn:Px.
  - rewrite pushNew_cons.
    destruct (existsb (String.eqb x) prev) eqn:E.
    + assert (existsb (String.eqb x) (List.filter P prev) = true) as ->;
        [|reflexivity].
      apply existsb_eqb_In, filter_In. split; [|assumption].
      now apply existsb_eqb_In.
    + assert (existsb (String.eqb x) (List.filter P prev) = false) as ->.
      { apply existsb_eqb_not_In. intros H. apply filter_In in H as [H _].
        apply existsb_eqb_not_In in E. contradiction. }
      rewrite List.filter_app. simpl. now rewrite Px.
  - destruct (existsb (String.eqb x) prev); [reflexivity|].
    rewrite List.filter_app. simpl. rewrite Px. now rewrite app_nil_r.
Qed.

Lemma filter_merged (P : string -> bool) (files : list (string * PortFile))
    (prev : list string) :
  List.filter P (merged files prev)
  = fold_left pushNew
      (map (fun kv => List.filter P (entriesOf (snd kv))) files)
      (List.filter P prev).
Proof.
  revert prev. induction files as [|[k f] files IH]; intros prev; [reflexivity|].
  unfold merged in *. simpl. now rewrite IH, filter_pushNew.
Qed.

(** Files without an entry for the key do not count in its resolution. *)
Lemma filter_merged_delete_key (P : string -> bool) (key : string)
    (files : list (string * PortFile)) (prev : list string) :
  (forall f, In (key, f) files -> List.filter P (entriesOf f) = []) ->
  List.filter P (merged (delete_key key files) prev)
  = List.filter P (merged files prev).
Proof.
  rewrite !filter_merged. generalize (List.filter P prev). clear prev.
  induction files as [|[k f] files IH]; intros prev H; [reflexivity|].
  simpl. destruct (String.eqb k key) eqn:E.
  - apply String.eqb_eq in E. subst k.
    rewrite (H f) by (now left). rewrite pushNew_nil.
    apply IH. intros f' Hin. apply H. now right.
  - simpl. apply IH. intros f' Hin. apply H. now right.
Qed.

Lemma filter_hasKey_undeclared (token : string) (file : PortFile) :
  (forall port, ~ declares file token port) ->
  List.filter (hasKey token) (entriesOf file) = [].
Proof.
  intros H. unfold declares in H.
  induction (entriesOf file) as [|e entries IH]; [reflexivity|].
  simpl. unfold hasKey at 1.
  destruct (parsePortOrPortMapping e) as [[k v]|] eqn:P.
  - destruct (String.eqb k token) eqn:E.
    + apply String.eqb_eq in E. subst k. exfalso.
      apply (H v). exists e. split; [now left|assumption].
    + apply IH. intros port (e' & Hin & P'). apply (H port). exists e'.
      split; [now right|assumption].
  - apply IH. intros port (e' & Hin & P'). apply (H port). exists e'.
    split; [now right|assumption].
Qed.

Lemma resolve_after_delete (token relPath : string)
    (files : list (string * PortFile)) :
  (forall removed port, In (relPath, removed) files ->
                        ~ declares removed token port) ->
  resolveFrom token (merged (delete_key relPath files) []) None
  = resolveFrom token (merged files []) None.
Proof.
  intros H.
  rewrite <- (resolveFrom_filter token (merged (delete_key relPath files) [])).
  rewrite <- (resolveFrom_filter token (merged files [])).
  rewrite filter_merged_delete_key; [reflexivity|].
  intros f Hin. apply filter_hasKey_undeclared. intros port. now apply H.
Qed.

(** C8 (as amended): on a started instance whose tracked values all have a
    [ports] array, after the unlink of a file the glob accepts: a token
    that names no inherited member and that no remaining document declares
    resolves to [null]; a token some remaining document declares still
    resolves to a validated port.  That port is the one it resolved to
    before whenever all tracked documents that declare the token, the
    removed one included, give it the same port, and also whenever the
    removed document did not declare the token itself. *)
Theorem deleteFile_consistency (this : PublicPorts) (relPath : string) :
  searchPath this <> None ->
  wellFormed this ->
  didMatchGlob this relPath = true ->
  (forall token,
      Js.inherited token = false ->
      (forall other file port,
          In (other, file) (portFiles this) -> other <> relPath ->
          ~ declares file token port) ->
      getPublicPort (deleteFile relPath this) token = Ok None)
  /\ (forall token other file port,
        In (other, file) (portFiles this) -> other <> relPath ->
        declares file token port ->
        exists p,
          getPublicPort (deleteFile relPath this) token = Ok (Some (PortStr p))
          /\ isPort p
          /\ ((forall any document port',
                  In (any, document) (portFiles this) ->
                  declares document token port' -> port' = port) ->
              p = port
              /\ getPublicPort this token = Ok (Some (PortStr port)))
          /\ ((forall removed port',
                  In (relPath, removed) (portFiles this) ->
                  ~ declares removed token port') ->
              getPublicPort this token = Ok (Some (PortStr p)))).
Proof.
  intros Hs Hwf Hg.
  assert (searchPath (deleteFile relPath this) <> None) as Hs'.
  { unfold deleteFile. now destruct (negb _). }
  pose proof (wellFormed_deleteFile relPath this Hwf) as Hwf'.
  assert (portFiles (deleteFile relPath this)
          = delete_key relPath (portFiles this)) as Hfiles.
  { unfold deleteFile. now rewrite Hg. }
  split.
  - intros token Hi Hnone.
    rewrite getPublicPort_own by assumption. rewrite Hfiles.
    destruct (resolveFrom _ _ None) as [p|] eqn:R; [|reflexivity].
    apply resolveFrom_merged in R as (k & f & Hin & Hd).
    apply In_delete_key in Hin as [Hin Hne].
    now destruct (Hnone k f p Hin Hne).
  - intros token other file port Hin Hne Hd.
    assert (In (other, file) (delete_key relPath (portFiles this))) as Hin'.
    { apply In_delete_key. now split. }
    destruct (merged_resolves _ _ _ _ _ Hin' Hd) as (p & Hp).
    exists p.
    assert (exists k f, In (k, f) (portFiles this) /\ declares f token p)
      as (k & f & Hk & Hkd).
    { apply resolveFrom_merged in Hp as (k & f & Hk & Hkd).
      apply In_delete_key in Hk as [Hk _]. eauto. }
    assert (isPort p) as Hport by (eapply declares_isAlias, Hkd).
    split; [|split; [exact Hport|split]].
    + rewrite getPublicPort_wellFormed by assumption.
      unfold getProperty. rewrite portFileToPorts_lookup, Hfiles.
      now rewrite Hp.
    + intros Hagree. split; [eapply Hagree; eassumption|].
      rewrite getPublicPort_wellFormed by assumption.
      unfold getProperty. rewrite portFileToPorts_lookup.
      destruct (merged_resolves _ _ _ _ _ Hin Hd) as (q & Hq).
      rewrite Hq. do 3 f_equal.
      apply resolveFrom_merged in Hq as (k' & f' & Hk' & Hkd').
      eapply Hagree; eassumption.
    + intros Hremoved.
      rewrite getPublicPort_wellFormed by assumption.
      unfold getProperty. rewrite portFileToPorts_lookup.
      rewrite <- (resolve_after_delete token relPath) by exact Hremoved.
      now rewrite Hp.
Qed.

Lemma deleteFile_consistency_witness :
  searchPath trackingShared <> None
  /\ wellFormed trackingShared
  /\ didMatchGlob trackingShared "b/.brev/ports.yaml" = true
  /\ getPublicPort (deleteFile "b/.brev/ports.yaml" trackingShared) "9000"
     = Ok None
  /\ getPublicPort trackingShared "web" = Ok (Some (PortStr "8080"))
  /\ getPublicPort (deleteFile "b/.brev/ports.yaml" trackingShared) "web"
     = Ok (Some (PortStr "8080")).
Proof.
  assert (searchPath trackingShared <> None) as Hs by discriminate.
  assert (wellFormed trackingShared) as Hwf by (repeat constructor).
  assert (didMatchGlob trackingShared "b/.brev/ports.yaml" = true) as Hg
      by reflexivity.
  split; [exact Hs|]. split; [exact Hwf|]. split; [exact Hg|].
  destruct (deleteFile_consistency trackingShared "b/.brev/ports.yaml"
              Hs Hwf Hg) as [Hgone Hkept].
  split.
  - apply Hgone; [reflexivity|].
    intros other file port [[= <- <-]|[[= <- <-]|[]]] Hne; [|congruence].
    intros (entry & [<-|[<-|[]]] & P); vm_compute in P; discriminate.
  - destruct (Hkept "web" "a/.brev/ports.yaml"
                (PFObject (Some "1") (Some ["8000"; "web:8080"])) "8080")
      as (p & Hafter & _ & Hsame & _).
    + left. reflexivity.
    + discriminate.
    + exists "web:8080". split; [right; now left|reflexivity].
    + destruct Hsame as [-> Hbefore].
      * intros any document port' [[= <- <-]|[[= <- <-]|[]]]
          (entry & Hentry & P); simpl in Hentry;
          repeat (destruct Hentry as [<-|Hentry];
                  [vm_compute in P; congruence|]);
          destruct Hentry.
      * split; assumption.
Defined.

(** C8 (as stated) fails: [web] is declared by both documents; after the
    unlink of [b] it is still declared by [a] and still resolves, but to
    8080 where it resolved to 9090 before. *)
Lemma alias_resolves_to_other_port_after_unlink :
  In ("a/.brev/ports.yaml", PFObject (Some "1") (Some ["8000"; "web:8080"]))
     (portFiles (deleteFile "b/.brev/ports.yaml" trackingTwo))
  /\ getPublicPort trackingTwo "web" = Ok (Some (PortStr "9090"))
  /\ getPublicPort (deleteFile "b/.brev/ports.yaml" trackingTwo) "web"
     = Ok (Some (PortStr "8080")).
Proof. split; [left; reflexivity|]. split; reflexivity. Qed.

(** * Further properties of the code *)

(** ** The merge and the directory *)

Lemma NoDup_snoc (x : string) (l : list string) :
  List.NoDup l -> ~ In x l -> List.NoDup (l ++ [x]).
Proof.
  induction l as [|y l IH]; simpl; intros Hnd Hin.
  - constructor; [intros []|constructor].
  - inversion Hnd as [|? ? Hy Hl]; subst. constructor.
    + rewrite in_app_iff. simpl. intros [H|[H|[]]]; [contradiction|].
      apply Hin. now left.
    + apply IH; [assumption|]. intros H. apply Hin. now right.
Qed.

Lemma NoDup_pushNew (curr prev : list string) :
  List.NoDup prev -> List.NoDup (pushNew prev curr).
Proof.
  revert prev. induction curr as [|x curr IH]; intros prev H; [exact H|].
  rewrite pushNew_cons. apply IH.
  destruct (existsb (String.eqb x) prev) eqn:E; [exact H|].
  apply NoDup_snoc; [exact H|]. now apply existsb_eqb_not_In.
Qed.

Lemma NoDup_merged (files : list (string * PortFile)) (prev : list string) :
  List.NoDup prev -> List.NoDup (merged files prev).
Proof.
  revert prev. induction files as [|[k f] files IH]; intros prev H; [exact H|].
  unfold merged in *. simpl. apply IH. now apply NoDup_pushNew.
Qed.

Lemma hasPorts_entriesOf (file : PortFile) :
  hasPorts file = true ->
  exists version ports, file = PFObject version (Some ports).
Proof. destruct file as [|v [ports|]]; try discriminate. eauto. Qed.

(** X1: what [mergePortFiles] returns holds no entry twice, and holds
    exactly the entries of the [ports] arrays of the tracked documents. *)
Theorem mergePortFiles_distinct_union (this : PublicPorts)
    (entries : list string) :
  mergePortFiles this = Ok entries ->
  List.NoDup entries
  /\ forall entry,
       In entry entries <->
       exists relPath version ports,
         In (relPath, PFObject version (Some ports)) (portFiles this)
         /\ In entry ports.
Proof.
  unfold mergePortFiles. intros H.
  apply reducePortFiles_Ok in H as [Hwf ->]. split.
  - apply NoDup_merged. constructor.
  - intros entry. rewrite In_merged. split.
    + intros [[]|(k & f & Hf & He)].
      rewrite List.Forall_forall in Hwf.
      destruct (hasPorts_entriesOf f (Hwf _ Hf)) as (v & ports & ->).
      exists k, v, ports. now split.
    + intros (k & v & ports & Hf & He). right.
      exists k, (PFObject v (Some ports)). now split.
Qed.

Lemma mergePortFiles_distinct_union_witness :
  mergePortFiles trackingShared = Ok ["8000"; "web:8080"; "9000"]
  /\ List.NoDup ["8000"; "web:8080"; "9000"].
Proof.
  split; [reflexivity|].
  apply (mergePortFiles_distinct_union trackingShared
           ["8000"; "web:8080"; "9000"] eq_refl).
Defined.

Lemma reducePortFiles_TypeError (values : list PortFile)
    (prev : list string) (e : JsError) :
  reducePortFiles values prev = Throw e -> exists message, e = TypeError message.
Proof.
  revert prev. induction values as [|f values IH]; intros prev; simpl.
  - discriminate.
  - destruct f as [|v [ports|]]; simpl.
    + intros [= <-]. eauto.
    + apply IH.
    + intros [= <-]. eauto.
Qed.

(** X2: a lookup returns (a port or [null]) exactly when [startWatch] has
    been called and every tracked value has a [ports] array; on a started
    instance with a tracked value without one, it throws a [TypeError]. *)
Theorem lookup_returns_iff_started_and_well_formed (this : PublicPorts)
    (token : string) :
  ((exists found, getPublicPort this token = Ok found)
   <-> searchPath this <> None /\ wellFormed this)
  /\ (searchPath this <> None -> ~ wellFormed this ->
      exists message, getPublicPort this token = Throw (TypeError message)).
Proof.
  split.
  - split.
    + intros (found & H). apply getPublicPort_Ok in H as (Hs & Hwf & _).
      now split.
    + intros [Hs Hwf]. eexists. now apply getPublicPort_wellFormed.
  - intros Hs Hn. unfold getPublicPort, getPublicPorts, mergePortFiles.
    destruct (searchPath this); [|congruence].
    destruct (reducePortFiles _ []) as [entries|e] eqn:R.
    + apply reducePortFiles_Ok in R as [Hwf _]. contradiction.
    + apply reducePortFiles_TypeError in R as (message & ->). simpl. eauto.
Qed.

Lemma resolveFrom_app (key : string) (before after : list string)
    (init : option string) :
  resolveFrom key (before ++ after) init
  = resolveFrom key after (resolveFrom key before init).
Proof. unfold resolveFrom. apply fold_left_app. Qed.

Lemma resolveFrom_no_key (key : string) (entries : list string)
    (init : option string) :
  (forall entry, In entry entries -> hasKey key entry = false) ->
  resolveFrom key entries init = init.
Proof.
  revert init. induction entries as [|e entries IH]; intros init H; [reflexivity|].
  rewrite resolveFrom_cons.
  assert (hasKey key e = false) as He by (apply H; now left).
  unfold hasKey in He.
  destruct (parsePortOrPortMapping e) as [[k v]|].
  - rewrite He. apply IH. intros e' Hin. apply H. now right.
  - apply IH. intros e' Hin. apply H. now right.
Qed.

(** X3: every entry of the object [portFileToPorts] builds has a key that
    matches [^[a-z0-9]+$] and a value that matches [^[0-9]+$], and comes
    from an entry of the list. *)
Theorem directory_entries_are_validated (entries : list string)
    (key port : string) :
  portFileToPorts entries !! key = Some port ->
  isAlias key /\ isPort port
  /\ exists entry,
       In entry entries /\ parsePortOrPortMapping entry = Some (key, port).
Proof.
  rewrite portFileToPorts_lookup. intros H.
  apply resolveFrom_Some in H as [H|(entry & Hin & P)]; [discriminate|].
  assert (declares (PFObject None (Some entries)) key port) as Hd
      by (now exists entry).
  apply declares_isAlias in Hd as [Ha Hp]. eauto.
Qed.

Lemma directory_entries_are_validated_witness :
  portFileToPorts ["8000"; "web:8080"; "Web:1"; "x:y"] !! "web" = Some "8080"
  /\ isAlias "web" /\ isPort "8080".
Proof.
  assert (portFileToPorts ["8000"; "web:8080"; "Web:1"; "x:y"] !! "web"
          = Some "8080") as H by reflexivity.
  split; [exact H|].
  destruct (directory_entries_are_validated _ _ _ H) as (Ha & Hp & _).
  split; assumption.
Defined.

(** X4: of several entries with one key the last one decides: an entry maps
    its key to its port whenever no later entry of the list has that key. *)
Theorem later_entry_wins (before after : list string)
    (entry key port : string) :
  parsePortOrPortMapping entry = Some (key, port) ->
  (forall later, In later after -> hasKey key later = false) ->
  portFileToPorts (before ++ entry :: after) !! key = Some port.
Proof.
  intros P Hafter.
  rewrite portFileToPorts_lookup, resolveFrom_app, resolveFrom_cons.
  rewrite P, String.eqb_refl. now apply resolveFrom_no_key.
Qed.

Lemma later_entry_wins_witness :
  parsePortOrPortMapping "web:9090" = Some ("web", "9090")
  /\ (forall later, In later ["9000"] -> hasKey "web" later = false)
  /\ portFileToPorts (["web:8080"; "8000"] ++ "web:9090" :: ["9000"]) !! "web"
     = Some "9090".
Proof.
  assert (forall later, In later ["9000"] -> hasKey "web" later = false) as H.
  { intros later [<-|[]]. reflexivity. }
  split; [reflexivity|]. split; [exact H|].
  apply (later_entry_wins ["web:8080"; "8000"] ["9000"] "web:9090" "web" "9090"
           eq_refl H).
Defined.

(** X5: an entry that fails validation is skipped: the object built is the
    one built without it. *)
Theorem invalid_entry_is_skipped (before after : list string)
    (entry : string) :
  parsePortOrPortMapping entry = None ->
  portFileToPorts (before ++ entry :: after) = portFileToPorts (before ++ after).
Proof.
  intros P. apply map_eq. intros key.
  rewrite !portFileToPorts_lookup, !resolveFrom_app, resolveFrom_cons.
  now rewrite P.
Qed.

Lemma invalid_entry_is_skipped_witness :
  parsePortOrPortMapping "my-server:8080" = None
  /\ portFileToPorts (["8000"] ++ "my-server:8080" :: ["web:9090"])
     = portFileToPorts (["8000"] ++ ["web:9090"]).
Proof.
  split; [reflexivity|].
  apply (invalid_entry_is_skipped ["8000"] ["web:9090"] "my-server:8080"
           eq_refl).
Defined.

(** X6: a key is absent from the object [portFileToPorts] builds exactly
    when no entry of the list is a valid entry with that key; the empty list
    gives the empty object. *)
Theorem directory_misses_undeclared_keys (entries : list string)
    (key : string) :
  (portFileToPorts entries !! key = None <->
   forall entry port,
     In entry entries -> parsePortOrPortMapping entry <> Some (key, port))
  /\ portFileToPorts [] = ∅.
Proof.
  split; [|reflexivity].
  rewrite portFileToPorts_lookup. split.
  - intros H entry port Hin P.
    destruct (resolveFrom_declared key port entries None entry Hin P) as (p & Hp).
    congruence.
  - intros H. destruct (resolveFrom key entries None) as [p|] eqn:R; [|reflexivity].
    apply resolveFrom_Some in R as [R|(entry & Hin & P)]; [discriminate|].
    now destruct (H entry p Hin).
Qed.

(** ** Entries *)

Lemma all_freeOf (p : ascii -> bool) (c : ascii) (s : string) :
  p c = false -> Js.all p s = true -> freeOf c s.
Proof.
  intros Hc. induction s as [|a s IH]; simpl; [intros _; apply freeOf_empty|].
  rewrite andb_true_iff. intros [Ha Hs].
  apply freeOf_cons; [congruence|auto].
Qed.

Lemma isAlias_colon_free (s : string) : isAlias s -> freeOf ":" s.
Proof.
  unfold isAlias, Js.plus. destruct s as [|a s]; [discriminate|].
  apply all_freeOf. reflexivity.
Qed.

Lemma freeOf_not_includes (c : ascii) (s : string) :
  freeOf c s -> Js.includes (String c "") s = false.
Proof.
  intros H. destruct (Js.includes (String c "") s) eqn:E; [|reflexivity].
  apply includes_spec in E as (before & after & E).
  now destruct (H before after).
Qed.

Lemma includes_separator (c : ascii) (before after : string) :
  Js.includes (String c "") (before +:+ String c after) = true.
Proof. apply includes_spec. now exists before, after. Qed.

(** X7: writing a valid alias, a colon and a valid port gives an entry that
    [parsePortOrPortMapping] reads back as that pair, also when further
    colon-separated parts follow, which are ignored; a valid port alone is
    read as the port mapped to itself. *)
Theorem mapping_entry_round_trip (alias port : string) :
  isAlias alias -> isPort port ->
  parsePortOrPortMapping (alias +:+ ":" +:+ port) = Some (alias, port)
  /\ (forall rest,
        parsePortOrPortMapping (alias +:+ ":" +:+ port +:+ ":" +:+ rest)
        = Some (alias, port))
  /\ parsePortOrPortMapping port = Some (port, port).
Proof.
  intros Ha Hp.
  pose proof (isAlias_colon_free alias Ha) as Fa.
  pose proof (isAlias_colon_free port (isPort_isAlias port Hp)) as Fp.
  assert (forall tail, nth 0 (Js.split ":" port ++ tail) "" = port) as Hport.
  { intros tail. now rewrite (split_free _ _ Fp). }
  split; [|split].
  - apply parsePortOrPortMapping_Some. right. unfold mapsAlias.
    change (alias +:+ ":" +:+ port) with (alias +:+ String ":" port).
    rewrite includes_separator, (split_token _ _ _ Fa).
    rewrite (split_free _ _ Fp). simpl. auto.
  - intros rest. apply parsePortOrPortMapping_Some. right. unfold mapsAlias.
    change (alias +:+ ":" +:+ port +:+ ":" +:+ rest)
      with (alias +:+ String ":" (port +:+ String ":" rest)).
    rewrite includes_separator, (split_token _ _ _ Fa).
    rewrite (split_token _ _ _ Fp). simpl. auto.
  - apply parsePortOrPortMapping_Some. left. unfold barePort.
    split; [|reflexivity]. split; [|auto].
    now apply freeOf_not_includes.
Qed.

Lemma mapping_entry_round_trip_witness :
  isAlias "web" /\ isPort "8080"
  /\ parsePortOrPortMapping ("web" +:+ ":" +:+ "8080") = Some ("web", "8080").
Proof.
  assert (isAlias "web") as Ha by reflexivity.
  assert (isPort "8080") as Hp by reflexivity.
  split; [exact Ha|]. split; [exact Hp|].
  apply (mapping_entry_round_trip "web" "8080" Ha Hp).
Defined.

(** ** The tracked set *)

Lemma getKey_assign (key other : string) (value : PortFile)
    (obj : list (string * PortFile)) :
  getKey other (assign key value obj)
  = if String.eqb key other then Some value else getKey other obj.
Proof.
  induction obj as [|[k v] obj IH]; simpl.
  - reflexivity.
  - destruct (String.eqb k key) eqn:E; simpl.
    + apply String.eqb_eq in E. subst k.
      destruct (String.eqb key other); reflexivity.
    + rewrite IH. destruct (String.eqb k other) eqn:E'; [|reflexivity].
      apply String.eqb_eq in E'. subst k. now rewrite String.eqb_sym, E.
Qed.

Lemma getKey_delete_key (key other : string)
    (obj : list (string * PortFile)) :
  getKey other (delete_key key obj)
  = if String.eqb key other then None else getKey other obj.
Proof.
  induction obj as [|[k v] obj IH]; simpl.
  - now destruct (String.eqb key other).
  - destruct (String.eqb k key) eqn:E; simpl.
    + apply String.eqb_eq in E. subst k. rewrite IH.
      now destruct (String.eqb key other).
    + rewrite IH. destruct (String.eqb k other) eqn:E'; [|reflexivity].
      apply String.eqb_eq in E'. subst k. now rewrite String.eqb_sym, E.
Qed.

(** X8: once [putFile] has read a valid manifest at a path the glob accepts,
    the tracked set holds that document under that path, and holds under
    every other path what it held before. *)
Theorem putFile_tracks_the_document (fs : FileSystem) (relPath : string)
    (this : PublicPorts) (document : PortFile) :
  didMatchGlob this relPath = true ->
  getPublicPortsFromFile fs this relPath = Some document ->
  getKey relPath (portFiles (putFile fs relPath this)) = Some document
  /\ forall other,
      other <> relPath ->
      getKey other (portFiles (putFile fs relPath this))
      = getKey other (portFiles this).
Proof.
  intros Hg Hd. unfold putFile. rewrite Hg, Hd. simpl. split.
  - now rewrite getKey_assign, String.eqb_refl.
  - intros other Hne. rewrite getKey_assign.
    destruct (String.eqb relPath other) eqn:E; [|reflexivity].
    apply String.eqb_eq in E. congruence.
Qed.

Lemma putFile_tracks_the_document_witness :
  didMatchGlob tracking8000 "a/.brev/ports.yaml" = true
  /\ getPublicPortsFromFile twoManifests tracking8000 "a/.brev/ports.yaml"
     = Some (PFObject (Some "1") (Some ["8000"; "web:8080"]))
  /\ getKey "a/.brev/ports.yaml"
       (portFiles (putFile twoManifests "a/.brev/ports.yaml" tracking8000))
     = Some (PFObject (Some "1") (Some ["8000"; "web:8080"])).
Proof.
  split; [reflexivity|]. split; [reflexivity|].
  apply (putFile_tracks_the_document twoManifests "a/.brev/ports.yaml"
           tracking8000 (PFObject (Some "1") (Some ["8000"; "web:8080"]))
           eq_refl eq_refl).
Defined.

(** X9: after [deleteFile] of a path the glob accepts nothing is tracked
    under that path, and every other path holds what it held before. *)
Theorem deleteFile_untracks_the_path (relPath : string) (this : PublicPorts) :
  didMatchGlob this relPath = true ->
  getKey relPath (portFiles (deleteFile relPath this)) = None
  /\ forall other,
      other <> relPath ->
      getKey other (portFiles (deleteFile relPath this))
      = getKey other (portFiles this).
Proof.
  intros Hg. unfold deleteFile. rewrite Hg. simpl. split.
  - now rewrite getKey_delete_key, String.eqb_refl.
  - intros other Hne. rewrite getKey_delete_key.
    destruct (String.eqb relPath other) eqn:E; [|reflexivity].
    apply String.eqb_eq in E. congruence.
Qed.

Lemma deleteFile_untracks_the_path_witness :
  didMatchGlob trackingTwo "a/.brev/ports.yaml" = true
  /\ getKey "a/.brev/ports.yaml"
       (portFiles (deleteFile "a/.brev/ports.yaml" trackingTwo)) = None
  /\ getKey "b/.brev/ports.yaml"
       (portFiles (deleteFile "a/.brev/ports.yaml" trackingTwo))
     = Some (PFObject (Some "1") (Some ["9000"; "web:9090"])).
Proof.
  split; [reflexivity|].
  destruct (deleteFile_untracks_the_path "a/.brev/ports.yaml" trackingTwo
              eq_refl) as [Hgone Hkept].
  split; [exact Hgone|].
  rewrite Hkept; [reflexivity|discriminate].
Defined.

Lemma delete_key_assign (key : string) (value : PortFile)
    (obj : list (string * PortFile)) :
  delete_key key (assign key value obj) = delete_key key obj.
Proof.
  induction obj as [|[k v] obj IH]; simpl.
  - now rewrite String.eqb_refl.
  - destruct (String.eqb k key) eqn:E; simpl.
    + now rewrite String.eqb_refl.
    + now rewrite E, IH.
Qed.

Lemma delete_key_idempotent (key : string) (obj : list (string * PortFile)) :
  delete_key key (delete_key key obj) = delete_key key obj.
Proof.
  induction obj as [|[k v] obj IH]; simpl; [reflexivity|].
  destruct (String.eqb k key) eqn:E; simpl; [exact IH|].
  now rewrite E, IH.
Qed.

Lemma delete_key_comm (a b : string) (obj : list (string * PortFile)) :
  delete_key a (delete_key b obj) = delete_key b (delete_key a obj).
Proof.
  induction obj as [|[k v] obj IH]; simpl; [reflexivity|].
  destruct (String.eqb k b) eqn:Eb; destruct (String.eqb k a) eqn:Ea; simpl;
    rewrite ?Ea, ?Eb, ?IH; reflexivity.
Qed.

(** X10: how removals compose: removing a file undoes its earlier
    [putFile], whatever was read; removing it twice is removing it once;
    removals of two files can be handled in either order. *)
Theorem deleteFile_composition (fs : FileSystem) (relPath other : string)
    (this : PublicPorts) :
  deleteFile relPath (putFile fs relPath this) = deleteFile relPath this
  /\ deleteFile relPath (deleteFile relPath this) = deleteFile relPath this
  /\ deleteFile relPath (deleteFile other this)
     = deleteFile other (deleteFile relPath this).
Proof.
  split; [|split].
  - unfold putFile, deleteFile, didMatchGlob.
    destruct (portsGlob this relPath) eqn:G; simpl; [|now rewrite G].
    destruct (getPublicPortsFromFile fs this relPath) as [document|]; simpl;
      rewrite G; simpl; [|reflexivity].
    now rewrite delete_key_assign.
  - unfold deleteFile, didMatchGlob.
    destruct (portsGlob this relPath) eqn:G; simpl; rewrite G; simpl;
      [|reflexivity].
    now rewrite delete_key_idempotent.
  - unfold deleteFile, didMatchGlob.
    destruct (portsGlob this relPath) eqn:G;
      destruct (portsGlob this other) eqn:G'; simpl; rewrite ?G, ?G'; simpl;
      try reflexivity.
    now rewrite delete_key_comm.
Qed.

Lemma assign_assign (key : string) (first second : PortFile)
    (obj : list (string * PortFile)) :
  assign key second (assign key first obj) = assign key second obj.
Proof.
  induction obj as [|[k v] obj IH]; simpl.
  - now rewrite String.eqb_refl.
  - destruct (String.eqb k key) eqn:E; simpl.
    + now rewrite String.eqb_refl.
    + now rewrite E, IH.
Qed.

(** X11: a change replaces the tracked document wholesale: when the second
    read of a file gives a valid manifest, handling the two events leaves
    the instance as handling the second one alone. *)
Theorem putFile_overwrites (first second : FileSystem) (relPath : string)
    (this : PublicPorts) (document : PortFile) :
  getPublicPortsFromFile second this relPath = Some document ->
  putFile second relPath (putFile first relPath this)
  = putFile second relPath this.
Proof.
  intros Hd. unfold putFile at 2.
  destruct (negb (didMatchGlob this relPath)) eqn:G; [reflexivity|].
  destruct (getPublicPortsFromFile first this relPath) as [old|];
    [|reflexivity].
  unfold putFile, didMatchGlob, getPublicPortsFromFile, getFullPath in *.
  simpl. rewrite G, Hd. now rewrite assign_assign.
Qed.

Lemma putFile_overwrites_witness :
  getPublicPortsFromFile twoManifests started "a/.brev/ports.yaml"
  = Some (PFObject (Some "1") (Some ["8000"; "web:8080"]))
  /\ putFile twoManifests "a/.brev/ports.yaml"
       (putFile sharedManifests "a/.brev/ports.yaml" started)
     = putFile twoManifests "a/.brev/ports.yaml" started.
Proof.
  split; [reflexivity|].
  apply (putFile_overwrites sharedManifests twoManifests "a/.brev/ports.yaml"
           started (PFObject (Some "1") (Some ["8000"; "web:8080"])) eq_refl).
Defined.

Lemma In_keys_assign (key other : string) (value : PortFile)
    (obj : list (string * PortFile)) :
  In other (map fst (assign key value obj)) ->
  other = key \/ In other (map fst obj).
Proof.
  induction obj as [|[k v] obj IH]; simpl.
  - intros [<-|[]]. now left.
  - destruct (String.eqb k key) eqn:E; simpl.
    + apply String.eqb_eq in E. subst k. tauto.
    + intros [<-|H]; [tauto|]. destruct (IH H); tauto.
Qed.

Lemma NoDup_keys_assign (key : string) (value : PortFile)
    (obj : list (string * PortFile)) :
  List.NoDup (map fst obj) -> List.NoDup (map fst (assign key value obj)).
Proof.
  induction obj as [|[k v] obj IH]; simpl; intros H.
  - constructor; [intros []|constructor].
  - inversion H as [|? ? Hk Hobj]; subst.
    destruct (String.eqb k key) eqn:E; simpl.
    + apply String.eqb_eq in E. subst k. now constructor.
    + apply String.eqb_neq in E. constructor; [|auto].
      intros Hin. apply In_keys_assign in Hin as [Hin|Hin]; congruence.
Qed.

Lemma In_keys_delete_key (key other : string)
    (obj : list (string * PortFile)) :
  In other (map fst (delete_key key obj)) -> In other (map fst obj).
Proof.
  induction obj as [|[k v] obj IH]; simpl; [tauto|].
  destruct (String.eqb k key); simpl; tauto.
Qed.

Lemma NoDup_keys_delete_key (key : string) (obj : list (string * PortFile)) :
  List.NoDup (map fst obj) -> List.NoDup (map fst (delete_key key obj)).
Proof.
  induction obj as [|[k v] obj IH]; simpl; intros H; [constructor|].
  inversion H as [|? ? Hk Hobj]; subst.
  destruct (String.eqb k key); simpl; [auto|].
  constructor; [|auto]. intros Hin. now apply In_keys_delete_key in Hin.
Qed.

Lemma Forall_assign (P : string * PortFile -> Prop) (key : string)
    (value : PortFile) (obj : list (string * PortFile)) :
  P (key, value) -> Forall P obj -> Forall P (assign key value obj).
Proof.
  intros Hp. induction obj as [|[k v] obj IH]; simpl; intros H.
  - now constructor.
  - inversion H as [|? ? Hk Hobj]; subst.
    destruct (String.eqb k key); constructor; auto.
Qed.

Lemma Forall_delete_key (P : string * PortFile -> Prop) (key : string)
    (obj : list (string * PortFile)) :
  Forall P obj -> Forall P (delete_key key obj).
Proof.
  induction obj as [|[k v] obj IH]; simpl; intros H; [constructor|].
  inversion H as [|? ? Hk Hobj]; subst.
  destruct (String.eqb k key); [auto|constructor; auto].
Qed.

(** X12: whatever events a started instance has handled, it tracks at most
    one document per path, every tracked path is accepted by its glob, and
    its [searchPath] is set. *)
Theorem watching_invariants (this : PublicPorts) :
  watching this ->
  List.NoDup (map fst (portFiles this))
  /\ Forall (fun kv => portsGlob this (fst kv) = true) (portFiles this)
  /\ searchPath this <> None.
Proof.
  induction 1 as [glob path|path this _ IH|fs ev this _ IH]; simpl.
  - split; [constructor|]. split; [constructor|discriminate].
  - destruct IH as (Hn & Hg & _). repeat split; try assumption. discriminate.
  - destruct IH as (Hn & Hg & Hs).
    assert (forall relPath,
               List.NoDup (map fst (portFiles (putFile fs relPath this)))
               /\ Forall (fun kv => portsGlob (putFile fs relPath this) (fst kv)
                                    = true)
                    (portFiles (putFile fs relPath this))
               /\ searchPath (putFile fs relPath this) <> None) as Hput.
    { intros relPath. unfold putFile, didMatchGlob.
      destruct (portsGlob this relPath) eqn:G; simpl; [|auto].
      destruct (getPublicPortsFromFile fs this relPath) as [document|];
        simpl; [|auto].
      split; [now apply NoDup_keys_assign|]. split; [|assumption].
      now apply Forall_assign. }
    destruct ev as [relPath|relPath|relPath]; simpl; try apply Hput.
    unfold deleteFile, didMatchGlob.
    destruct (portsGlob this relPath); simpl; [|auto].
    split; [now apply NoDup_keys_delete_key|]. split; [|assumption].
    now apply Forall_delete_key.
Qed.

Lemma watching_invariants_witness :
  watching trackingTwo
  /\ List.NoDup (map fst (portFiles trackingTwo))
  /\ searchPath trackingTwo <> None.
Proof.
  assert (watching trackingTwo) as W.
  { apply (watching_event twoManifests (EvAdd "b/.brev/ports.yaml")).
    apply (watching_event twoManifests (EvAdd "a/.brev/ports.yaml")).
    apply watching_start. }
  split; [exact W|].
  destruct (watching_invariants trackingTwo W) as (Hn & _ & Hs).
  split; assumption.
Defined.

(** ** The host header *)

Lemma append_cons (x : ascii) (a b : string) :
  String x a +:+ b = String x (a +:+ b).
Proof. reflexivity. Qed.

Lemma append_assoc (a b c : string) : (a +:+ b) +:+ c = a +:+ (b +:+ c).
Proof.
  induction a as [|x a IH]; [reflexivity|].
  now rewrite !append_cons, IH.
Qed.

Lemma append_empty (a : string) : a +:+ "" = a.
Proof.
  induction a as [|x a IH]; [reflexivity|].
  now rewrite append_cons, IH.
Qed.

Lemma freeOf_prefix (c : ascii) (a b : string) :
  freeOf c (a +:+ b) -> freeOf c a.
Proof.
  intros H before after ->. apply (H before (after +:+ b)).
  now rewrite append_assoc.
Qed.

Lemma upTo_free (c : ascii) (s : string) : freeOf c s -> Js.upTo c s = s.
Proof.
  induction s as [|a s IH]; intros H; simpl; [reflexivity|].
  apply freeOf_tail in H as [Hne H]. apply Ascii.eqb_neq in Hne.
  now rewrite Hne, IH.
Qed.

Lemma upTo_app (c : ascii) (s rest : string) :
  freeOf c s -> Js.upTo c (s +:+ String c rest) = s.
Proof.
  induction s as [|a s IH]; intros H.
  - simpl. now rewrite Ascii.eqb_refl.
  - apply freeOf_tail in H as [Hne H]. apply Ascii.eqb_neq in Hne.
    rewrite append_cons. simpl. now rewrite Hne, IH.
Qed.

(** X14: the port of the [Host] header plays no part in the routing: a
    header with a port is routed as the same header without it. *)
Theorem maybeProxy_ignores_host_port (req : Request) (name port : string) :
  freeOf ":" name ->
  maybeProxy (withHost (Some (name +:+ ":" +:+ port)) req)
  = maybeProxy (withHost (Some name) req).
Proof.
  intros H. unfold maybeProxy, domain, separator. simpl.
  change (name +:+ ":" +:+ port) with (name +:+ String ":" port).
  now rewrite (upTo_app _ _ _ H), (upTo_free _ _ H).
Qed.

Lemma maybeProxy_ignores_host_port_witness :
  freeOf ":" "8080.example.com"
  /\ maybeProxy (withHost (Some ("8080.example.com" +:+ ":" +:+ "443"))
                   (request "" "GET" "/" None))
     = Some "8080".
Proof.
  assert (freeOf ":" "8080.example.com") as H.
  { apply all_freeOf with (p := fun a => negb (Ascii.eqb a ":")); reflexivity. }
  split; [exact H|].
  rewrite (maybeProxy_ignores_host_port (request "" "GET" "/" None)
             "8080.example.com" "443" H).
  reflexivity.
Defined.

(** X15: a request without a [Host] header, with an empty one, or with one
    that starts with the colon of the port, is never routed: both handlers
    pass it on with [next()], whatever the state of the directory. *)
Theorem missing_host_is_passed_on (req : Request) :
  default "" (host req) = "" \/ hasPrefix ":" (default "" (host req)) ->
  maybeProxy req = None
  /\ forall (authenticated : Request -> bool) (normalize : string -> string)
            (this : PublicPorts),
      router_all authenticated normalize this req = Next
      /\ wsRouter_ws authenticated this req = Next.
Proof.
  intros H.
  assert (maybeProxy req = None) as E.
  { unfold maybeProxy, domain.
    assert (Js.upTo ":" (default "" (host req)) = "") as ->; [|reflexivity].
    destruct H as [->|(rest & ->)]; reflexivity. }
  split; [exact E|]. intros authenticated normalize this.
  unfold router_all, wsRouter_ws. now rewrite E.
Qed.

Lemma missing_host_is_passed_on_witness :
  (default "" (host (withHost None (request "" "GET" "/" None))) = ""
   \/ hasPrefix ":" (default "" (host (withHost None
                                        (request "" "GET" "/" None)))))
  /\ router_all anonymous normalPath (new_PublicPorts defaultPortsGlob)
       (withHost None (request "" "GET" "/" None)) = Next.
Proof.
  assert (default "" (host (withHost None (request "" "GET" "/" None))) = ""
          \/ hasPrefix ":" (default "" (host (withHost None
                                               (request "" "GET" "/" None)))))
    as H by (left; reflexivity).
  split; [exact H|].
  apply (missing_host_is_passed_on _ H).
Defined.

(** X16: a routed token has no colon and is the leading part of the [Host]
    header. *)
Theorem token_is_host_prefix (req : Request) (token : string) :
  maybeProxy req = Some token ->
  freeOf ":" token /\ hasPrefix token (default "" (host req)).
Proof.
  intros H. apply maybeProxy_segments in H as (-> & _ & _).
  destruct (upTo_spec ":" (default "" (host req))) as [Hfree Hhost].
  fold (domain req) in Hfree, Hhost.
  assert (hasPrefix (hd "" (Js.split (separator req) (domain req)))
            (domain req)) as (rest & Hd).
  { destruct (split_form (separator req) (domain req)) as [[_ E]|[_ E]].
    - exists "". now rewrite append_empty.
    - eexists. exact E. }
  split.
  - rewrite Hd in Hfree. now apply freeOf_prefix in Hfree.
  - destruct Hhost as [->|(port & ->)].
    + now exists rest.
    + exists (rest +:+ String ":" port). rewrite <- append_assoc.
      now rewrite <- Hd.
Qed.

Lemma token_is_host_prefix_witness :
  maybeProxy (request "8080.example.com:443" "GET" "/" None) = Some "8080"
  /\ freeOf ":" "8080"
  /\ hasPrefix "8080" "8080.example.com:443".
Proof.
  split; [reflexivity|].
  apply (token_is_host_prefix
           (request "8080.example.com:443" "GET" "/" None) "8080" eq_refl).
Defined.

(** ** What the handlers never do *)

(** Each way the HTTP handler can end, with what made it end so. *)
Lemma router_all_cases (authenticated : Request -> bool)
    (normalize : string -> string) (this : PublicPorts) (req : Request) :
  (maybeProxy req = None
   /\ router_all authenticated normalize this req = Next)
  \/ exists token,
      maybeProxy req = Some token
      /\ ((exists e, getPublicPort this token = Throw e
                     /\ router_all authenticated normalize this req = Failed e)
          \/ exists found,
              getPublicPort this token = Ok found
              /\ router_all authenticated normalize this req
                 = if negb (authenticated req) && negb (isSome found) then
                     if Js.startsWith "/static/" (path req)
                        && String.eqb (method req) "GET"
                     then Next
                     else if match accept req with
                             | Some a => negb (String.eqb a "")
                                         && Js.includes "text/html" a
                             | None => false
                             end
                     then if Js.includes "/login" (path req) then Next
                          else RedirectLogin
                                 (if String.eqb
                                       (normalize (baseUrl req +:+ path req)) "/"
                                  then None
                                  else Some (normalize
                                               (baseUrl req +:+ path req)))
                     else Unauthorized
                   else ProxyWeb (proxyOptions found token req)).
Proof.
  destruct (maybeProxy req) as [token|] eqn:Hr.
  - right. exists token. split; [reflexivity|].
    destruct (getPublicPort this token) as [found|e] eqn:Hf.
    + right. exists found. split; [reflexivity|].
      now apply router_all_routed.
    + left. exists e. split; [reflexivity|].
      unfold router_all. rewrite Hr.
      destruct (maybeProxy_nonempty _ _ Hr) as (a & s & ->). now rewrite Hf.
  - left. split; [reflexivity|]. unfold router_all. now rewrite Hr.
Qed.

Lemma wsRouter_ws_cases (authenticated : Request -> bool)
    (this : PublicPorts) (req : Request) :
  (maybeProxy req = None /\ wsRouter_ws authenticated this req = Next)
  \/ exists token,
      maybeProxy req = Some token
      /\ ((exists e, getPublicPort this token = Throw e
                     /\ wsRouter_ws authenticated this req = Failed e)
          \/ exists found,
              getPublicPort this token = Ok found
              /\ wsRouter_ws authenticated this req
                 = if negb (authenticated req) && negb (isSome found)
                   then Unauthorized
                   else ProxyWs (proxyOptions found token req)).
Proof.
  destruct (maybeProxy req) as [token|] eqn:Hr.
  - right. exists token. split; [reflexivity|].
    destruct (getPublicPort this token) as [found|e] eqn:Hf.
    + right. exists found. split; [reflexivity|].
      now apply wsRouter_ws_routed.
    + left. exists e. split; [reflexivity|].
      unfold wsRouter_ws. rewrite Hr.
      destruct (maybeProxy_nonempty _ _ Hr) as (a & s & ->). now rewrite Hf.
  - left. split; [reflexivity|]. unfold wsRouter_ws. now rewrite Hr.
Qed.

Ltac no_such_outcome :=
  repeat split; intros;
  repeat match goal with
         | H : _ \/ _ |- _ => destruct H
         | H : exists _, _ |- _ => destruct H
         end;
  congruence.

Ltac case_conditions :=
  repeat match goal with
         | |- context [if ?b then _ else _] => destruct b eqn:?
         end.

(** X17: the HTTP handler hands a request to the forwarder only when its
    host is routed, the lookup has returned, and the caller is authenticated
    or the lookup found the token; the forwarder then gets the found value,
    or the token when nothing was found, with [ignorePath] set and the
    original URL. *)
Theorem forwarding_requires_authorization (authenticated : Request -> bool)
    (normalize : string -> string) (this : PublicPorts) (req : Request)
    (options : ProxyOptions) :
  router_all authenticated normalize this req = ProxyWeb options ->
  exists token found,
    maybeProxy req = Some token
    /\ getPublicPort this token = Ok found
    /\ (authenticated req = true \/ found <> None)
    /\ options = {| ignorePath := true;
                    mappedPort := default (PortStr token) found;
                    targetUrl := originalUrl req |}.
Proof.
  intros H.
  destruct (router_all_cases authenticated normalize this req)
    as [[_ E]|(token & Hr & [(e & _ & E)|(found & Hf & E)])];
    rewrite E in H; try discriminate.
  exists token, found. split; [exact Hr|]. split; [exact Hf|].
  destruct (authenticated req); destruct found as [v|]; simpl in H;
    try (injection H as <-; split; [auto; right; discriminate|reflexivity]).
  revert H. case_conditions; discriminate.
Qed.

Lemma forwarding_requires_authorization_witness :
  router_all anonymous normalPath trackingTwo
    (request "web.example.com" "POST" "/api" None)
  = ProxyWeb {| ignorePath := true;
                mappedPort := PortStr "9090";
                targetUrl := "/api" |}
  /\ exists token found,
      maybeProxy (request "web.example.com" "POST" "/api" None) = Some token
      /\ getPublicPort trackingTwo token = Ok found
      /\ (anonymous (request "web.example.com" "POST" "/api" None) = true
          \/ found <> None).
Proof.
  assert (router_all anonymous normalPath trackingTwo
            (request "web.example.com" "POST" "/api" None)
          = ProxyWeb {| ignorePath := true;
                        mappedPort := PortStr "9090";
                        targetUrl := "/api" |}) as H by reflexivity.
  split; [exact H|].
  destruct (forwarding_requires_authorization _ _ _ _ _ H)
    as (token & found & Hr & Hf & Ha & _).
  exists token, found. auto.
Defined.

(** X18: the two handlers forward the same requests with the same options;
    neither calls the forwarder of the other, and the WebSocket handler
    passes a request on exactly when its host is not routed. *)
Theorem handlers_forward_alike (authenticated : Request -> bool)
    (normalize : string -> string) (this : PublicPorts) (req : Request) :
  (forall options,
      router_all authenticated normalize this req = ProxyWeb options
      <-> wsRouter_ws authenticated this req = ProxyWs options)
  /\ (forall options,
        router_all authenticated normalize this req <> ProxyWs options
        /\ wsRouter_ws authenticated this req <> ProxyWeb options)
  /\ (wsRouter_ws authenticated this req = Next <-> maybeProxy req = None).
Proof.
  destruct (router_all_cases authenticated normalize this req)
    as [[Hr E]|(token & Hr & [(e & Hf & E)|(found & Hf & E)])];
    destruct (wsRouter_ws_cases authenticated this req)
      as [[Hr' E']|(token' & Hr' & [(e' & Hf' & E')|(found' & Hf' & E')])];
    try congruence; rewrite E, E'.
  - repeat split; intros; try discriminate; assumption.
  - repeat split; intros; try discriminate; congruence.
  - assert (token' = token) as -> by congruence.
    assert (found' = found) as -> by congruence.
    destruct (negb (authenticated req) && negb (isSome found)).
    + repeat split; try discriminate; try congruence;
        intros H; revert H; case_conditions; discriminate.
    + repeat split; try discriminate; try congruence.
Qed.

(** X19: the HTTP handler turns a request away, by a redirect to the login
    or by the unauthorized error, only when the caller is not authenticated,
    the host is routed and the lookup returned [null], and the request is no
    [GET] of a static asset.  It redirects only requests that accept
    [text/html] and whose path does not contain [/login], and never with [/]
    as the place to return to; it rejects only requests that do not accept
    [text/html]. *)
Theorem turned_away_only_when_private (authenticated : Request -> bool)
    (normalize : string -> string) (this : PublicPorts) (req : Request) :
  (forall to,
      router_all authenticated normalize this req = RedirectLogin to ->
      acceptsHtml req /\ ~ contains "/login" (path req)
      /\ to <> Some "/"
      /\ (to = None /\ normalize (baseUrl req +:+ path req) = "/"
          \/ to = Some (normalize (baseUrl req +:+ path req))))
  /\ (router_all authenticated normalize this req = Unauthorized ->
      ~ acceptsHtml req)
  /\ ((exists to,
          router_all authenticated normalize this req = RedirectLogin to)
      \/ router_all authenticated normalize this req = Unauthorized ->
      authenticated req = false
      /\ ~ staticAsset req
      /\ exists token,
          maybeProxy req = Some token /\ getPublicPort this token = Ok None).
Proof.
  pose proof (staticAsset_test req) as Hs.
  pose proof (acceptsHtml_test req) as Hh.
  pose proof (includes_spec "/login" (path req)) as Hl.
  destruct (router_all_cases authenticated normalize this req)
    as [[Hr E]|(token & Hr & [(e & Hf & E)|(found & Hf & E)])]; rewrite E.
  - no_such_outcome.
  - no_such_outcome.
  - destruct (authenticated req); destruct found as [v|];
      cbn [negb andb isSome]; try no_such_outcome.
    destruct (Js.startsWith "/static/" (path req)
              && String.eqb (method req) "GET");
      [no_such_outcome|].
    assert (~ staticAsset req) as Hns by (rewrite <- Hs; discriminate).
    destruct (match accept req with Some _ => _ | None => _ end).
    + destruct (Js.includes "/login" (path req)).
      * no_such_outcome.
      * split; [|split; [discriminate|]].
        -- intros to [= <-]. split; [now apply Hh|].
           split; [rewrite <- Hl; discriminate|].
           destruct (String.eqb _ "/") eqn:X.
           ++ apply String.eqb_eq in X. split; [discriminate|]. now left.
           ++ apply String.eqb_neq in X. split; [congruence|]. now right.
        -- intros _. split; [reflexivity|]. split; [exact Hns|]. eauto.
    + split; [discriminate|]. split.
      * intros _. rewrite <- Hh. discriminate.
      * intros _. split; [reflexivity|]. split; [exact Hns|]. eauto.
Qed.

Lemma turned_away_only_when_private_witness :
  router_all anonymous normalPath tracking8000
    (request "3000.example.com" "GET" "/foo" (Some "text/html"))
  = RedirectLogin (Some "/foo")
  /\ acceptsHtml (request "3000.example.com" "GET" "/foo" (Some "text/html"))
  /\ ~ contains "/login"
         (path (request "3000.example.com" "GET" "/foo" (Some "text/html"))).
Proof.
  assert (router_all anonymous normalPath tracking8000
            (request "3000.example.com" "GET" "/foo" (Some "text/html"))
          = RedirectLogin (Some "/foo")) as H by reflexivity.
  split; [exact H|].
  destruct (turned_away_only_when_private anonymous normalPath tracking8000
              (request "3000.example.com" "GET" "/foo" (Some "text/html")))
    as (Hredirect & _ & _).
  destruct (Hredirect _ H) as (Ha & Hl & _).
  split; assumption.
Defined.

(** X20: a handler ends with an exception of the directory only for a
    routed host, and then either [startWatch] was never called or some
    tracked value has no [ports] array. *)
Theorem failure_comes_from_the_directory (authenticated : Request -> bool)
    (normalize : string -> string) (this : PublicPorts) (req : Request)
    (e : JsError) :
  router_all authenticated normalize this req = Failed e
  \/ wsRouter_ws authenticated this req = Failed e ->
  (exists token,
      maybeProxy req = Some token /\ getPublicPort this token = Throw e)
  /\ (searchPath this = None
      \/ exists relPath file,
          In (relPath, file) (portFiles this) /\ hasPorts file = false).
Proof.
  intros H.
  assert (exists token,
             maybeProxy req = Some token /\ getPublicPort this token = Throw e)
    as (token & Hr & Hf).
  { destruct H as [H|H].
    - destruct (router_all_cases authenticated normalize this req)
        as [[_ E]|(token & Hr & [(e' & Hf & E)|(found & _ & E)])];
        rewrite E in H; try discriminate.
      + injection H as ->. eauto.
      + revert H. case_conditions; discriminate.
    - destruct (wsRouter_ws_cases authenticated this req)
        as [[_ E]|(token & Hr & [(e' & Hf & E)|(found & _ & E)])];
        rewrite E in H; try discriminate.
      + injection H as ->. eauto.
      + revert H. case_conditions; discriminate. }
  split; [eauto|]. eapply getPublicPort_Throw, Hf.
Qed.

Lemma failure_comes_from_the_directory_witness :
  (router_all anonymous normalPath (new_PublicPorts defaultPortsGlob)
     (request "8080.example.com" "GET" "/" None)
   = Failed (Error "searchPath not defined -- startWatch not yet called")
   \/ wsRouter_ws anonymous (new_PublicPorts defaultPortsGlob)
        (request "8080.example.com" "GET" "/" None)
      = Failed (Error "searchPath not defined -- startWatch not yet called"))
  /\ exists token,
      maybeProxy (request "8080.example.com" "GET" "/" None) = Some token
      /\ getPublicPort (new_PublicPorts defaultPortsGlob) token
         = Throw (Error "searchPath not defined -- startWatch not yet called").
Proof.
  assert (router_all anonymous normalPath (new_PublicPorts defaultPortsGlob)
            (request "8080.example.com" "GET" "/" None)
          = Failed (Error "searchPath not defined -- startWatch not yet called")
          \/ wsRouter_ws anonymous (new_PublicPorts defaultPortsGlob)
               (request "8080.example.com" "GET" "/" None)
             = Failed
                 (Error "searchPath not defined -- startWatch not yet called"))
    as H by (left; reflexivity).
  split; [exact H|].
  apply (failure_comes_from_the_directory anonymous normalPath _ _ _ H).
Defined.

(** ** Adding a manifest *)

Lemma assign_fresh (key : string) (value : PortFile)
    (obj : list (string * PortFile)) :
  getKey key obj = None -> assign key value obj = obj ++ [(key, value)].
Proof.
  induction obj as [|[k v] obj IH]; simpl; [reflexivity|].
  destruct (String.eqb k key); [discriminate|].
  intros H. now rewrite IH.
Qed.

Lemma merged_snoc (files : list (string * PortFile)) (key : string)
    (file : PortFile) (prev : list string) :
  merged (files ++ [(key, file)]) prev
  = pushNew (merged files prev) (entriesOf file).
Proof. unfold merged. now rewrite map_app, fold_left_app. Qed.

Lemma filter_none (P : string -> bool) (l : list string) :
  (forall x, In x l -> P x = false) -> List.filter P l = [].
Proof.
  induction l as [|x l IH]; intros H; [reflexivity|]. simpl.
  rewrite (H x) by (now left). apply IH. intros y Hy. apply H. now right.
Qed.

(** X21: reading a valid manifest at a path not tracked so far takes no
    token away: a token the lookup found before is still found after, and
    it resolves to the same value unless an entry of the new manifest has
    the token as its key. *)
Theorem new_manifest_keeps_tokens_public (fs : FileSystem)
    (relPath : string) (this : PublicPorts) (version : option string)
    (ports : list string) (token : string) (value : PortValue) :
  didMatchGlob this relPath = true ->
  getKey relPath (portFiles this) = None ->
  getPublicPortsFromFile fs this relPath
  = Some (PFObject version (Some ports)) ->
  getPublicPort this token = Ok (Some value) ->
  (exists value',
      getPublicPort (putFile fs relPath this) token = Ok (Some value'))
  /\ ((forall entry, In entry ports -> hasKey token entry = false) ->
      getPublicPort (putFile fs relPath this) token = Ok (Some value)).
Proof.
  intros Hg Hfresh Hd Hlookup.
  apply getPublicPort_Ok in Hlookup as (Hs & Hwf & Hvalue).
  assert (portFiles (putFile fs relPath this)
          = portFiles this ++ [(relPath, PFObject version (Some ports))])
    as Hfiles.
  { unfold putFile. rewrite Hg, Hd. simpl. now apply assign_fresh. }
  assert (searchPath (putFile fs relPath this) <> None) as Hs'.
  { unfold putFile. now rewrite Hg, Hd. }
  assert (wellFormed (putFile fs relPath this)) as Hwf'.
  { unfold wellFormed. rewrite Hfiles. apply Forall_app. split; [exact Hwf|].
    now constructor. }
  rewrite (getPublicPort_wellFormed _ _ Hs' Hwf'), Hfiles, merged_snoc.
  unfold getProperty in *. rewrite portFileToPorts_lookup in *.
  cbn [entriesOf]. set (M := merged (portFiles this) []) in *.
  split.
  - destruct (resolveFrom token M None) as [p|] eqn:R.
    + apply resolveFrom_Some in R as [R|(entry & Hin & P)]; [discriminate|].
      assert (In entry (pushNew M ports)) as Hin'
          by (apply In_pushNew; now left).
      destruct (resolveFrom_declared token p _ None entry Hin' P) as (p' & ->).
      eauto.
    + destruct (Js.inherited token); [|discriminate].
      destruct (resolveFrom token (pushNew M ports) None); eauto.
  - intros Hnew.
    rewrite <- (resolveFrom_filter token (pushNew M ports)).
    rewrite filter_pushNew, (filter_none _ ports Hnew), pushNew_nil.
    rewrite resolveFrom_filter. now rewrite Hvalue.
Qed.

Lemma new_manifest_keeps_tokens_public_witness :
  didMatchGlob tracking8000 "b/.brev/ports.yaml" = true
  /\ getKey "b/.brev/ports.yaml" (portFiles tracking8000) = None
  /\ getPublicPort tracking8000 "8000" = Ok (Some (PortStr "8000"))
  /\ getPublicPort (putFile twoManifests "b/.brev/ports.yaml" tracking8000)
       "8000"
     = Ok (Some (PortStr "8000")).
Proof.
  split; [reflexivity|]. split; [reflexivity|]. split; [reflexivity|].
  apply (new_manifest_keeps_tokens_public twoManifests "b/.brev/ports.yaml"
           tracking8000 (Some "1") ["9000"; "web:9090"] "8000"
           (PortStr "8000") eq_refl eq_refl eq_refl eq_refl).
  intros entry [<-|[<-|[]]]; reflexivity.
Defined.

Lemma pushNew_appends (curr prev : list string) :
  exists added,
    pushNew prev curr = prev ++ added
    /\ forall x, In x added <-> In x curr /\ ~ In x prev.
Proof.
  revert prev. induction curr as [|x curr IH]; intros prev.
  - exists []. rewrite pushNew_nil, app_nil_r. split; [reflexivity|].
    simpl. tauto.
  - rewrite pushNew_cons.
    destruct (existsb (String.eqb x) prev) eqn:E.
    + apply existsb_eqb_In in E.
      destruct (IH prev) as (added & -> & Hadded).
      exists added. split; [reflexivity|]. intros y. rewrite Hadded. simpl.
      split; [tauto|]. intros [[<-|H] Hn]; [contradiction|tauto].
    + apply existsb_eqb_not_In in E.
      destruct (IH (prev ++ [x])) as (added & -> & Hadded).
      exists (x :: added). split; [now rewrite <- app_assoc|].
      intros y. simpl. rewrite Hadded, in_app_iff. simpl.
      destruct (string_dec x y) as [<-|Hne]; [tauto|]. tauto.
Qed.

(** X22: reading a valid manifest at a path not tracked so far only appends
    to what [mergePortFiles] returns: the entries merged before keep their
    places, followed by the entries of the new manifest that were not
    there. *)
Theorem new_manifest_appends_to_the_merge (fs : FileSystem)
    (relPath : string) (this : PublicPorts) (version : option string)
    (ports entries : list string) :
  didMatchGlob this relPath = true ->
  getKey relPath (portFiles this) = None ->
  getPublicPortsFromFile fs this relPath
  = Some (PFObject version (Some ports)) ->
  mergePortFiles this = Ok entries ->
  exists added,
    mergePortFiles (putFile fs relPath this) = Ok (entries ++ added)
    /\ forall entry, In entry added <-> In entry ports /\ ~ In entry entries.
Proof.
  intros Hg Hfresh Hd Hm. unfold mergePortFiles in *.
  apply reducePortFiles_Ok in Hm as [Hwf ->].
  assert (portFiles (putFile fs relPath this)
          = portFiles this ++ [(relPath, PFObject version (Some ports))])
    as ->.
  { unfold putFile. rewrite Hg, Hd. simpl. now apply assign_fresh. }
  rewrite reducePortFiles_merged.
  - rewrite merged_snoc. cbn [entriesOf].
    destruct (pushNew_appends ports (merged (portFiles this) []))
      as (added & -> & Hadded).
    now exists added.
  - apply Forall_app. split; [exact Hwf|]. now constructor.
Qed.

Lemma new_manifest_appends_to_the_merge_witness :
  didMatchGlob tracking8000 "b/.brev/ports.yaml" = true
  /\ getKey "b/.brev/ports.yaml" (portFiles tracking8000) = None
  /\ mergePortFiles tracking8000 = Ok ["8000"]
  /\ exists added,
      mergePortFiles (putFile sharedManifests "b/.brev/ports.yaml" tracking8000)
      = Ok (["8000"] ++ added)
      /\ forall entry,
          In entry added <->
          In entry ["web:8080"; "8000"; "9000"] /\ ~ In entry ["8000"].
Proof.
  split; [reflexivity|]. split; [reflexivity|]. split; [reflexivity|].
  apply (new_manifest_appends_to_the_merge sharedManifests
           "b/.brev/ports.yaml" tracking8000 (Some "1")
           ["web:8080"; "8000"; "9000"] ["8000"]
           eq_refl eq_refl eq_refl eq_refl).
Defined.

(** ** A public port, end to end *)

(** X23: on a started instance whose tracked values all have a [ports]
    array, a valid port listed bare in some tracked document, and that no
    entry uses as the alias side of a mapping, resolves to itself; a request
    routed to it is forwarded to that port by both handlers, authenticated
    or not. *)
Theorem bare_port_is_forwarded_to_itself (authenticated : Request -> bool)
    (normalize : string -> string) (this : PublicPorts) (req : Request)
    (relPath : string) (file : PortFile) (port : string) :
  searchPath this <> None ->
  wellFormed this ->
  In (relPath, file) (portFiles this) ->
  In port (entriesOf file) ->
  isPort port ->
  (forall other document entry target,
      In (other, document) (portFiles this) ->
      In entry (entriesOf document) ->
      ~ mapsAlias entry port target) ->
  maybeProxy req = Some port ->
  getPublicPort this port = Ok (Some (PortStr port))
  /\ router_all authenticated normalize this req
     = ProxyWeb {| ignorePath := true;
                   mappedPort := PortStr port;
                   targetUrl := originalUrl req |}
  /\ wsRouter_ws authenticated this req
     = ProxyWs {| ignorePath := true;
                  mappedPort := PortStr port;
                  targetUrl := originalUrl req |}.
Proof.
  intros Hs Hwf Hf He Hp Hnone Hr.
  assert (getPublicPort this port = Ok (Some (PortStr port))) as Hlookup.
  { rewrite getPublicPort_wellFormed by assumption.
    unfold getProperty. rewrite portFileToPorts_lookup.
    assert (declares file port port) as Hd.
    { exists port. split; [exact He|].
      apply parsePortOrPortMapping_Some. left. split; [|reflexivity].
      split; [|auto].
      apply freeOf_not_includes, isAlias_colon_free, isPort_isAlias, Hp. }
    destruct (merged_resolves _ _ _ _ _ Hf Hd) as (p & Hres).
    rewrite Hres. do 3 f_equal.
    apply resolveFrom_merged in Hres as (k & f & Hin & entry & Hentry & P).
    apply parsePortOrPortMapping_Some in P as [[_ ->]|P]; [reflexivity|].
    now destruct (Hnone k f entry p Hin Hentry). }
  split; [exact Hlookup|].
  rewrite (router_all_routed _ _ _ _ _ _ Hr Hlookup).
  rewrite (wsRouter_ws_routed _ _ _ _ _ Hr Hlookup).
  cbn [isSome negb]. rewrite andb_false_r. split; reflexivity.
Qed.

Lemma bare_port_is_forwarded_to_itself_witness :
  maybeProxy (request "9000.example.com" "GET" "/" None) = Some "9000"
  /\ getPublicPort trackingTwo "9000" = Ok (Some (PortStr "9000"))
  /\ router_all anonymous normalPath trackingTwo
       (request "9000.example.com" "GET" "/" None)
     = ProxyWeb {| ignorePath := true;
                   mappedPort := PortStr "9000";
                   targetUrl := "/" |}.
Proof.
  split; [reflexivity|].
  assert (forall other document entry target,
             In (other, document) (portFiles trackingTwo) ->
             In entry (entriesOf document) ->
             ~ mapsAlias entry "9000" target) as Hnone.
  { intros other document entry target
      [[= <- <-]|[[= <- <-]|[]]] [<-|[<-|[]]] (Hc & Hk & _); discriminate. }
  destruct (bare_port_is_forwarded_to_itself anonymous normalPath trackingTwo
              (request "9000.example.com" "GET" "/" None)
              "b/.brev/ports.yaml"
              (PFObject (Some "1") (Some ["9000"; "web:9090"])) "9000")
    as (Hlookup & Hweb & _);
    try reflexivity; try assumption.
  - discriminate.
  - repeat constructor.
  - right. left. reflexivity.
  - left. reflexivity.
  - split; assumption.
Defined.
